(** * Biblioteca: a book catalogue over MariaDB and SQLAlchemy

    A shallow embedding of [biblioteca_maria_orm.py]: the [Libro] table, the
    [LibroDBManager] operations and the console controller, followed by the
    properties of the catalogue.

    Conventions of the embedding.
    - A Python [str] is a [string] whose elements are characters (code points
      below 256).  Literals that carry accents are written as in the source
      and decoded by [latin1].
    - The database is a value of type [BaseDatos]: the rows of [libros], the
      AUTO_INCREMENT counter and the collation that [ORDER BY] uses, which is
      a matter of configuration.  MariaDB runs in its default strict mode: a
      text longer than its column is an error, not a truncation.  The 32-bit
      range of the [id] column is not represented.
    - SQL leaves open the order of rows whose sort keys are equal; here they
      come out by ascending primary key, the order in which the clustered
      index is scanned.
    - A LIKE pattern has the wildcards [%] and [_] and the backslash as its
      escape character; after [lower] characters are compared exactly.
    - A failed [commit] followed by [rollback] leaves the database as it was
      before the operation.  The texts that exceptions carry stand for the
      messages of the driver.
    - The interpreter is CPython with [sys.int_max_str_digits] at its default
      of 4300: [int] refuses a text with more digits.
    - [setattr] on a row receives a [str] or [None].  An instance refuses such
      a value under the names [__class__], [__dict__] and [__weakref__]; any
      other name that is not a mapped attribute becomes a plain attribute of
      the object, which the session does not flush.
    - Console input is a finite list of lines; reading past its end is
      Python's [EOFError]. *)

From Stdlib Require Import ZArith List String Ascii Bool Lia Permutation Sorted DecimalString.
Import ListNotations.
Open Scope string_scope.
Open Scope Z_scope.

(** ** Python strings *)

Module Str.

(** Decode the UTF-8 spelling of a literal into characters below 256. *)
Fixpoint latin1 (s : string) : string :=
  match s with
  | EmptyString => EmptyString
  | String c r =>
      match r with
      | EmptyString => String c EmptyString
      | String d r' =>
          if (N_of_ascii c =? 194)%N then String d (latin1 r')
          else if (N_of_ascii c =? 195)%N
               then String (ascii_of_N (N_of_ascii d + 64)) (latin1 r')
               else String c (latin1 r)
      end
  end.

(** The line feed of ["\n"]. *)
Definition nl : string := String (ascii_of_N 10) EmptyString.

(** [str.isspace] on one character. *)
Definition es_espacio (c : ascii) : bool :=
  let n := N_of_ascii c in
  ((9 <=? n) && (n <=? 13) || (28 <=? n) && (n <=? 32)
   || (n =? 133) || (n =? 160))%N.

Fixpoint lstrip (s : string) : string :=
  match s with
  | EmptyString => EmptyString
  | String c r => if es_espacio c then lstrip r else s
  end.

Fixpoint rstrip (s : string) : string :=
  match s with
  | EmptyString => EmptyString
  | String c r =>
      match rstrip r with
      | EmptyString => if es_espacio c then EmptyString else String c EmptyString
      | r' => String c r'
      end
  end.

(** [s.strip()] *)
Definition strip (s : string) : string := rstrip (lstrip s).

(** [str.lower] on one character: A-Z and the accented capitals. *)
Definition minuscula (c : ascii) : ascii :=
  let n := N_of_ascii c in
  if ((65 <=? n) && (n <=? 90)
      || (192 <=? n) && (n <=? 222) && negb (n =? 215))%N
  then ascii_of_N (n + 32) else c.

(** [str.upper] on one character, for the letters whose capital is below 256. *)
Definition mayuscula (c : ascii) : ascii :=
  let n := N_of_ascii c in
  if ((97 <=? n) && (n <=? 122)
      || (224 <=? n) && (n <=? 254) && negb (n =? 247))%N
  then ascii_of_N (n - 32) else c.

Fixpoint lower (s : string) : string :=
  match s with
  | EmptyString => EmptyString
  | String c r => String (minuscula c) (lower r)
  end.

(** [s.capitalize()] *)
Definition capitalize (s : string) : string :=
  match s with
  | EmptyString => EmptyString
  | String c r => String (mayuscula c) (lower r)
  end.

(** [s * n] *)
Fixpoint repetir (s : string) (n : nat) : string :=
  match n with
  | O => EmptyString
  | S n' => s ++ repetir s n'
  end.

(** [len(s)] *)
Definition len (s : string) : nat := String.length s.

(** The format specification [<ancho]: pad on the right, never cut. *)
Definition ljust (s : string) (ancho : nat) : string :=
  s ++ repetir " " (ancho - len s).

(** [s[:n]] *)
Definition hasta (s : string) (n : nat) : string := substring 0 n s.

(** [str(n)] for an [int]. *)
Definition de_entero (n : Z) : string := NilZero.string_of_int (Z.to_int n).

Definition es_digito (c : ascii) : bool :=
  let n := N_of_ascii c in ((48 <=? n) && (n <=? 57))%N.

Definition valor_digito (c : ascii) : Z := Z.of_N (N_of_ascii c) - 48.

(** Digits with single underscores between them, as [int] reads them;
    [previo] tells whether the character before was a digit. *)
Fixpoint digitos (s : string) (acc : Z) (previo : bool) : option Z :=
  match s with
  | EmptyString => if previo then Some acc else None
  | String c r =>
      if es_digito c then digitos r (10 * acc + valor_digito c) true
      else if Ascii.eqb c "_" && previo then digitos r acc false
      else None
  end.

(** The digits among the characters of [s]. *)
Fixpoint cuenta_digitos (s : string) : Z :=
  match s with
  | EmptyString => 0
  | String c r => (if es_digito c then 1 else 0) + cuenta_digitos r
  end.

(** [sys.get_int_max_str_digits()] *)
Definition int_max_str_digits : Z := 4300.

(** What [int] reads after the sign: a text with more digits than
    [int_max_str_digits] is refused whatever its value, leading zeros
    counted. *)
Definition magnitud (s : string) : option Z :=
  if int_max_str_digits <? cuenta_digitos s then None else digitos s 0 false.

(** [int(s)]: [None] stands for [ValueError]. *)
Definition a_entero (s : string) : option Z :=
  match strip s with
  | String "+" r => magnitud r
  | String "-" r => option_map Z.opp (magnitud r)
  | t => magnitud t
  end.

(** Python truth value of a [str]. *)
Definition no_vacia (s : string) : bool := negb (s =? "")%string.

End Str.

Import Str.

(** ** Values, exceptions and results *)

(** The Python values that reach the catalogue: [None], an [int], a [str]. *)
Inductive valor : Type :=
| VNone
| VInt (n : Z)
| VStr (s : string).

Inductive excepcion : Type :=
| IntegrityError (detalle : string)
| DataError (detalle : string)
| FlushError (detalle : string)
| TypeError (detalle : string)
| AttributeError (detalle : string)
| KeyError (clave : string)
| EOFError.

(** [str(e)] *)
Definition str_excepcion (e : excepcion) : string :=
  match e with
  | IntegrityError d => d
  | DataError d => d
  | FlushError d => d
  | TypeError d => d
  | AttributeError d => d
  | KeyError k => "'" ++ k ++ "'"
  | EOFError => "EOF when reading a line"
  end.

(** A computation that returns or raises. *)
Inductive resultado (A : Type) : Type :=
| Devuelve (a : A)
| Lanza (e : excepcion).
Arguments Devuelve {A} a.
Arguments Lanza {A} e.

Definition ligar {A B} (c : resultado A) (k : A -> resultado B) : resultado B :=
  match c with
  | Devuelve a => k a
  | Lanza e => Lanza e
  end.

Declare Scope res_scope.
Delimit Scope res_scope with res.
Notation "x <- c ;; k" := (ligar c (fun x => k))
  (at level 61, c at next level, right associativity) : res_scope.

(** ** The model: table [libros] *)

Definition ESTADOS_LECTURA : string * string :=
  (latin1 "Leído", latin1 "No leído").

(** A row of [libros] as the ORM maps it.  [titulo], [autor] and [estado] are
    NOT NULL; [genero] is nullable. *)
Record Libro : Type := mkLibro {
  id : Z;
  titulo : string;
  autor : string;
  genero : option string;
  estado : string
}.

(** A Python [dict] with [str] keys, in insertion order. *)
Definition dict : Type := list (string * valor).

Fixpoint dict_get (d : dict) (clave : string) : resultado valor :=
  match d with
  | [] => Lanza (KeyError clave)
  | (k, v) :: d' => if (k =? clave)%string then Devuelve v else dict_get d' clave
  end.

Definition valor_opcional (o : option string) : valor :=
  match o with
  | Some s => VStr s
  | None => VNone
  end.

(** [Libro.to_dict] *)
Definition to_dict (self : Libro) : dict :=
  [ ("id", VInt (id self));
    ("titulo", VStr (titulo self));
    ("autor", VStr (autor self));
    ("genero", valor_opcional (genero self));
    ("estado", VStr (estado self)) ].

(** ** The database *)

Record BaseDatos : Type := mkBD {
  colacion : string -> string -> bool;
  filas : list Libro;
  autoinc : Z
}.

(** The table that [create_all] leaves in an empty schema. *)
Definition bd_vacia (col : string -> string -> bool) : BaseDatos :=
  {| colacion := col; filas := []; autoinc := 1 |}.

(** A [String(limite)] NOT NULL column receives [v]. *)
Definition texto_obligatorio (columna : string) (limite : nat)
    (v : option string) : resultado string :=
  match v with
  | None => Lanza (IntegrityError ("Column '" ++ columna ++ "' cannot be null"))
  | Some s =>
      if (limite <? len s)%nat
      then Lanza (DataError ("Data too long for column '" ++ columna ++ "'"))
      else Devuelve s
  end.

(** A nullable [String(limite)] column receives [v]. *)
Definition texto_opcional (columna : string) (limite : nat)
    (v : option string) : resultado (option string) :=
  match v with
  | None => Devuelve None
  | Some s =>
      if (limite <? len s)%nat
      then Lanza (DataError ("Data too long for column '" ++ columna ++ "'"))
      else Devuelve (Some s)
  end.

Fixpoint decimales (s : string) (acc : Z) : option Z :=
  match s with
  | EmptyString => Some acc
  | String c r =>
      if es_digito c then decimales r (10 * acc + valor_digito c) else None
  end.

(** The integer that the server reads in a text: a decimal literal. *)
Definition entero_sql (s : string) : option Z :=
  match s with
  | EmptyString => None
  | String "-" EmptyString => None
  | String "-" r => option_map Z.opp (decimales r 0)
  | _ => decimales s 0
  end.

Definition tiene_id (n : Z) (l : Libro) : bool := id l =? n.

(** Rewrite the row whose key is [n]. *)
Definition modificar (n : Z) (f : Libro -> Libro) (fs : list Libro) : list Libro :=
  map (fun l => if tiene_id n l then f l else l) fs.

Definition con_filas (bd : BaseDatos) (fs : list Libro) : BaseDatos :=
  {| colacion := colacion bd; filas := fs; autoinc := autoinc bd |}.

(** [session.add(Libro(...))] and [commit]: the INSERT. *)
Definition sql_insert (bd : BaseDatos) (titulo autor genero estado : option string)
    : resultado BaseDatos :=
  (t <- texto_obligatorio "titulo" 255 titulo ;;
   a <- texto_obligatorio "autor" 255 autor ;;
   g <- texto_opcional "genero" 100 genero ;;
   e <- texto_obligatorio "estado" 20 estado ;;
   Devuelve {| colacion := colacion bd;
               filas := filas bd ++ [mkLibro (autoinc bd) t a g e];
               autoinc := autoinc bd + 1 |})%res.

(** [setattr(libro, campo, nuevo_valor)] when [campo] is not a mapped
    attribute and the value is a [str] or [None]: the three names that an
    instance does not let be bound to such a value raise, every other name
    becomes a plain attribute of the object. *)
Definition setattr_no_mapeado (campo : string) : resultado unit :=
  if (campo =? "__class__")%string
  then Lanza (TypeError "__class__ must be set to a class")
  else if (campo =? "__dict__")%string
  then Lanza (TypeError "__dict__ must be set to a dictionary")
  else if (campo =? "__weakref__")%string
  then Lanza (AttributeError "attribute '__weakref__' is not writable")
  else Devuelve tt.

(** [setattr(libro, campo, nuevo_valor)] and [commit]: the UPDATE of one
    column, a new key for the row when [campo] is ["id"], and nothing to flush
    when [campo] is not a mapped attribute. *)
Definition sql_update (bd : BaseDatos) (libro : Libro) (campo : string)
    (nuevo_valor : option string) : resultado BaseDatos :=
  (if (campo =? "titulo")%string then
     t <- texto_obligatorio "titulo" 255 nuevo_valor ;;
     Devuelve (con_filas bd (modificar (id libro)
       (fun l => mkLibro (id l) t (autor l) (genero l) (estado l)) (filas bd)))
   else if (campo =? "autor")%string then
     a <- texto_obligatorio "autor" 255 nuevo_valor ;;
     Devuelve (con_filas bd (modificar (id libro)
       (fun l => mkLibro (id l) (titulo l) a (genero l) (estado l)) (filas bd)))
   else if (campo =? "genero")%string then
     g <- texto_opcional "genero" 100 nuevo_valor ;;
     Devuelve (con_filas bd (modificar (id libro)
       (fun l => mkLibro (id l) (titulo l) (autor l) g (estado l)) (filas bd)))
   else if (campo =? "estado")%string then
     e <- texto_obligatorio "estado" 20 nuevo_valor ;;
     Devuelve (con_filas bd (modificar (id libro)
       (fun l => mkLibro (id l) (titulo l) (autor l) (genero l) e) (filas bd)))
   else if (campo =? "id")%string then
     match nuevo_valor with
     | None => Lanza (FlushError "Can't update table libros using NULL for primary key value")
     | Some s =>
         match entero_sql s with
         | None => Lanza (DataError "Incorrect integer value for column 'id'")
         | Some n =>
             if n =? id libro then Devuelve bd
             else if existsb (tiene_id n) (filas bd)
             then Lanza (IntegrityError "Duplicate entry for key 'PRIMARY'")
             else Devuelve
               {| colacion := colacion bd;
                  filas := modificar (id libro)
                    (fun l => mkLibro n (titulo l) (autor l) (genero l) (estado l))
                    (filas bd);
                  autoinc := Z.max (autoinc bd) (n + 1) |}
         end
     end
   else
     _ <- setattr_no_mapeado campo ;;
     Devuelve bd)%res.

(** [session.delete(libro)] and [commit]: the DELETE. *)
Definition sql_delete (bd : BaseDatos) (libro : Libro) : resultado BaseDatos :=
  Devuelve (con_filas bd (filter (fun l => negb (tiene_id (id libro) l)) (filas bd))).

(** *** ORDER BY *)

Fixpoint insertar_ordenado {A} (leb : A -> A -> bool) (x : A) (l : list A) : list A :=
  match l with
  | [] => [x]
  | y :: l' => if leb x y then x :: l else y :: insertar_ordenado leb x l'
  end.

(** A stable sort: equal keys keep the order they arrive in. *)
Fixpoint ordenar {A} (leb : A -> A -> bool) (l : list A) : list A :=
  match l with
  | [] => []
  | x :: l' => insertar_ordenado leb x (ordenar leb l')
  end.

Definition id_leb (a b : Libro) : bool := id a <=? id b.

Definition titulo_leb (bd : BaseDatos) (a b : Libro) : bool :=
  colacion bd (titulo a) (titulo b).

(** The scan of the clustered index: rows by ascending primary key. *)
Definition recorrido (bd : BaseDatos) : list Libro := ordenar id_leb (filas bd).

(** [.order_by(Libro.titulo)]: rows with equal titles stay in scan order. *)
Definition order_by_titulo (bd : BaseDatos) (fs : list Libro) : list Libro :=
  ordenar (titulo_leb bd) fs.

(** *** LIKE *)

Inductive ficha : Type :=
| Cualquiera          (* % *)
| Uno                 (* _ *)
| Literal (c : ascii).

(** The pattern of a LIKE, with the backslash as escape character. *)
Fixpoint fichas (p : string) : list ficha :=
  match p with
  | EmptyString => []
  | String c r =>
      if Ascii.eqb c "\" then
        match r with
        | EmptyString => [Literal c]
        | String d r' => Literal d :: fichas r'
        end
      else if Ascii.eqb c "%" then Cualquiera :: fichas r
      else if Ascii.eqb c "_" then Uno :: fichas r
      else Literal c :: fichas r
  end.

Fixpoint coincide (p : list ficha) : string -> bool :=
  match p with
  | [] => fun s => match s with EmptyString => true | _ => false end
  | Literal c :: p' =>
      fun s => match s with
               | String d r => Ascii.eqb c d && coincide p' r
               | EmptyString => false
               end
  | Uno :: p' =>
      fun s => match s with
               | String _ r => coincide p' r
               | EmptyString => false
               end
  | Cualquiera :: p' =>
      fix resto (s : string) : bool :=
        coincide p' s
        || match s with
           | String _ r => resto r
           | EmptyString => false
           end
  end.

(** [columna LIKE patron] *)
Definition like (s patron : string) : bool := coincide (fichas patron) s.

(** [columna.ilike(patron)]: lower(columna) LIKE lower(patron); NULL on a
    NULL column. *)
Definition ilike (columna : option string) (patron : string) : option bool :=
  match columna with
  | None => None
  | Some s => Some (like (lower s) (lower patron))
  end.

(** The OR of SQL, with NULL as the unknown truth value. *)
Definition sql_or (a b : option bool) : option bool :=
  match a, b with
  | Some true, _ | _, Some true => Some true
  | Some false, Some false => Some false
  | _, _ => None
  end.

(** A WHERE clause keeps the rows on which it is TRUE. *)
Definition es_verdadero (c : option bool) : bool :=
  match c with
  | Some true => true
  | _ => false
  end.

(** ** LibroDBManager *)

(** [session.get(Libro, libro_id)] *)
Definition obtener_libro_por_id (bd : BaseDatos) (libro_id : Z) : option Libro :=
  find (tiene_id libro_id) (filas bd).

Definition insertar_libro (bd : BaseDatos) (titulo autor genero estado : option string)
    : BaseDatos * resultado bool :=
  match sql_insert bd titulo autor genero estado with
  | Devuelve bd' => (bd', Devuelve true)
  | Lanza (IntegrityError _) => (bd, Devuelve false)
  | Lanza e => (bd, Lanza e)
  end.

Definition obtener_todos_los_libros (bd : BaseDatos) : list dict :=
  map to_dict (order_by_titulo bd (recorrido bd)).

Definition actualizar_libro (bd : BaseDatos) (libro_id : Z) (campo : string)
    (nuevo_valor : option string) : BaseDatos * (bool * option string) :=
  match obtener_libro_por_id bd libro_id with
  | None => (bd, (false, Some "Libro no encontrado."))
  | Some libro =>
      match sql_update bd libro campo nuevo_valor with
      | Devuelve bd' => (bd', (true, None))
      | Lanza e => (bd, (false, Some ("Error al actualizar: " ++ str_excepcion e)))
      end
  end.

Definition eliminar_libro (bd : BaseDatos) (libro_id : Z) : BaseDatos * bool :=
  match obtener_libro_por_id bd libro_id with
  | None => (bd, false)
  | Some libro =>
      match sql_delete bd libro with
      | Devuelve bd' => (bd', true)
      | Lanza _ => (bd, false)
      end
  end.

Definition filtro_busqueda (termino_busqueda : string) (l : Libro) : bool :=
  es_verdadero
    (sql_or (sql_or (ilike (Some (titulo l)) termino_busqueda)
                    (ilike (Some (autor l)) termino_busqueda))
            (ilike (genero l) termino_busqueda)).

Definition buscar_libros (bd : BaseDatos) (termino : string) : list dict :=
  let termino_busqueda := "%" ++ termino ++ "%" in
  map to_dict
    (order_by_titulo bd (filter (filtro_busqueda termino_busqueda) (recorrido bd))).

(** ** The console *)

Inductive evento : Type :=
| Imprime (texto : string)       (* print(texto) *)
| Pregunta (prompt : string)     (* the prompt that input(prompt) writes *)
| LimpiaPantalla.                (* os.system('clear') *)

(** What the program runs in: the database behind the session, the lines still
    to be typed and what has been written so far. *)
Record mundo : Type := mkMundo {
  bd : BaseDatos;
  entradas : list string;
  salida : list evento
}.

Inductive efecto (A : Type) : Type :=
| Hecho (a : A) (w : mundo)
| Falla (e : excepcion) (w : mundo)
| Agotado.
Arguments Hecho {A} a w.
Arguments Falla {A} e w.
Arguments Agotado {A}.

Definition IO (A : Type) : Type := mundo -> efecto A.

Definition ret {A} (a : A) : IO A := fun w => Hecho a w.

Definition bind {A B} (c : IO A) (k : A -> IO B) : IO B :=
  fun w =>
    match c w with
    | Hecho a w' => k a w'
    | Falla e w' => Falla e w'
    | Agotado => Agotado
    end.

Declare Scope io_scope.
Delimit Scope io_scope with io.
Notation "x <- c ;; k" := (bind c (fun x => k))
  (at level 61, c at next level, right associativity) : io_scope.
Notation "c ;; k" := (bind c (fun _ => k))
  (at level 61, right associativity) : io_scope.
Open Scope io_scope.

Definition escribe (ev : evento) (w : mundo) : mundo :=
  {| bd := bd w; entradas := entradas w; salida := salida w ++ [ev] |}.

Definition print (texto : string) : IO unit :=
  fun w => Hecho tt (escribe (Imprime texto) w).

Definition input (prompt : string) : IO string :=
  fun w =>
    match entradas w with
    | [] => Falla EOFError (escribe (Pregunta prompt) w)
    | linea :: resto =>
        Hecho linea {| bd := bd w; entradas := resto;
                       salida := salida w ++ [Pregunta prompt] |}
    end.

Definition elevar {A} (r : resultado A) : IO A :=
  fun w =>
    match r with
    | Devuelve a => Hecho a w
    | Lanza e => Falla e w
    end.

(** How one turn of a [while True] ends. *)
Inductive paso (A : Type) : Type :=
| Sigue              (* back to the top of the loop *)
| Sale (a : A).      (* [return a], or [break] when [A] is [unit] *)
Arguments Sigue {A}.
Arguments Sale {A} a.

Fixpoint while_true {A} (vueltas : nat) (cuerpo : IO (paso A)) : IO A :=
  match vueltas with
  | O => fun _ => Agotado
  | S n =>
      p <- cuerpo ;;
      match p with
      | Sale a => ret a
      | Sigue => while_true n cuerpo
      end
  end.

(** [while True: cuerpo].  Every loop of the program reads a line in each of
    its turns, so the lines left to type bound the number of turns. *)
Definition bucle {A} (cuerpo : IO (paso A)) : IO A :=
  fun w => while_true (S (List.length (entradas w))) cuerpo w.

(** The manager bound to the session of the running program. *)
Module db.

Definition con_bd (w : mundo) (b : BaseDatos) : mundo :=
  {| bd := b; entradas := entradas w; salida := salida w |}.

Definition insertar_libro (titulo autor genero estado : string) : IO bool :=
  fun w =>
    let (b, r) := insertar_libro (bd w) (Some titulo) (Some autor) (Some genero)
                    (Some estado) in
    elevar r (con_bd w b).

Definition obtener_todos_los_libros : IO (list dict) :=
  fun w => Hecho (obtener_todos_los_libros (bd w)) w.

Definition obtener_libro_por_id (libro_id : Z) : IO (option Libro) :=
  fun w => Hecho (obtener_libro_por_id (bd w) libro_id) w.

Definition actualizar_libro (libro_id : Z) (campo nuevo_valor : string)
    : IO (bool * option string) :=
  fun w =>
    let (b, r) := actualizar_libro (bd w) libro_id campo (Some nuevo_valor) in
    Hecho r (con_bd w b).

Definition eliminar_libro (libro_id : Z) : IO bool :=
  fun w =>
    let (b, r) := eliminar_libro (bd w) libro_id in
    Hecho r (con_bd w b).

Definition buscar_libros (termino : string) : IO (list dict) :=
  fun w => Hecho (buscar_libros (bd w) termino) w.

End db.

Definition limpiar_pantalla : IO unit :=
  fun w => Hecho tt (escribe LimpiaPantalla w).

Definition mostrar_menu : IO unit :=
  print (nl ++ repetir "=" 50) ;;
  print " Administrador de Biblioteca (MariaDB + SQLAlchemy)" ;;
  print (repetir "=" 50) ;;
  print "1.  Agregar nuevo libro" ;;
  print "2.  Ver listado de libros" ;;
  print "3.  Buscar libros" ;;
  print (latin1 "4.  Actualizar información de un libro") ;;
  print "5.  Eliminar libro existente" ;;
  print "6.  Salir" ;;
  print (repetir "=" 50).

Definition obtener_entrada (prompt : string) : IO string :=
  bucle
    (linea <- input prompt ;;
     let entrada := strip linea in
     if no_vacia entrada then ret (Sale entrada)
     else
       print (latin1 " La entrada no puede estar vacía. Intente de nuevo.") ;;
       ret Sigue).

Definition obtener_id_valido (mensaje : string) : IO Z :=
  bucle
    (texto <- obtener_entrada mensaje ;;
     match a_entero texto with
     | Some libro_id =>
         libro <- db.obtener_libro_por_id libro_id ;;
         match libro with
         | Some _ => ret (Sale libro_id)
         | None =>
             print (latin1 " No se encontró ningún libro con el ID "
                    ++ de_entero libro_id ++ ".") ;;
             ret Sigue
         end
     | None =>
         print (latin1 " Por favor, ingrese un número entero válido para el ID.") ;;
         ret Sigue
     end).

(** The [while True] that asks for the reading status, in
    [manejar_agregar_libro] and in [manejar_actualizar_libro]; the two differ
    in the prompt and in the complaint. *)
Definition pedir_estado (prompt queja : string) : IO string :=
  bucle
    (estado_input <- obtener_entrada prompt ;;
     if (estado_input =? "1")%string then ret (Sale (fst ESTADOS_LECTURA))
     else if (estado_input =? "2")%string then ret (Sale (snd ESTADOS_LECTURA))
     else print queja ;; ret Sigue).

Definition manejar_agregar_libro : IO unit :=
  limpiar_pantalla ;;
  print (nl ++ "---  AGREGAR NUEVO LIBRO ---") ;;
  titulo <- obtener_entrada (latin1 "Título: ") ;;
  autor <- obtener_entrada "Autor: " ;;
  genero <- obtener_entrada (latin1 "Género: ") ;;
  estado <- pedir_estado (latin1 "Estado de lectura (1: Leído, 2: No leído): ")
              (latin1 " Opción de estado no válida. Use '1' o '2'.") ;;
  ok <- db.insertar_libro titulo autor genero estado ;;
  if ok : bool
  then print (nl ++ " Libro '" ++ titulo ++ "' de " ++ autor ++ " agregado exitosamente.")
  else print (nl ++ " Error al agregar el libro (posible duplicado o error de integridad).").

(** *** The table *)

Definition COL_ID : nat := 5.
Definition COL_TITULO : nat := 40.
Definition COL_AUTOR : nat := 25.
Definition COL_GENERO : nat := 15.
Definition COL_ESTADO : nat := 12.

Definition separador (char : string) : string :=
  "+" ++ repetir char COL_ID ++ "+" ++ repetir char COL_TITULO ++ "+"
  ++ repetir char COL_AUTOR ++ "+" ++ repetir char COL_GENERO ++ "+"
  ++ repetir char COL_ESTADO ++ "+".

(** [(v[:ancho-3] + '...') if len(v) > ancho else v] *)
Definition recortar (v : valor) (ancho : nat) : resultado string :=
  match v with
  | VStr s =>
      Devuelve (if (ancho <? len s)%nat then hasta s (ancho - 3) ++ "..." else s)
  | VInt _ => Lanza (TypeError "object of type 'int' has no len()")
  | VNone => Lanza (TypeError "object of type 'NoneType' has no len()")
  end.

(** [f"{v:<ancho}"] *)
Definition alinear (v : valor) (ancho : nat) : resultado string :=
  match v with
  | VStr s => Devuelve (ljust s ancho)
  | VInt n => Devuelve (ljust (de_entero n) ancho)
  | VNone => Lanza (TypeError "unsupported format string passed to NoneType.__format__")
  end.

Definition encabezado : string :=
  "| " ++ ljust "ID" (COL_ID - 1) ++ " | "
  ++ ljust (latin1 "TÍTULO") (COL_TITULO - 1) ++ " | "
  ++ ljust "AUTOR" (COL_AUTOR - 1) ++ " | "
  ++ ljust (latin1 "GÉNERO") (COL_GENERO - 1) ++ " | "
  ++ ljust "ESTADO" (COL_ESTADO - 1) ++ " |".

(** The body of the [for]: the line of one book. *)
Definition linea_libro (libro : dict) : resultado string :=
  (v_titulo <- dict_get libro "titulo" ;;
   titulo <- recortar v_titulo COL_TITULO ;;
   v_autor <- dict_get libro "autor" ;;
   autor <- recortar v_autor COL_AUTOR ;;
   v_genero <- dict_get libro "genero" ;;
   genero <- recortar v_genero COL_GENERO ;;
   v_id <- dict_get libro "id" ;;
   c_id <- alinear v_id (COL_ID - 1) ;;
   v_estado <- dict_get libro "estado" ;;
   c_estado <- alinear v_estado (COL_ESTADO - 1) ;;
   Devuelve ("| " ++ c_id ++ " | " ++ ljust titulo (COL_TITULO - 1) ++ " | "
             ++ ljust autor (COL_AUTOR - 1) ++ " | "
             ++ ljust genero (COL_GENERO - 1) ++ " | " ++ c_estado ++ " |"))%res.

Fixpoint imprimir_lineas (libros : list dict) : IO unit :=
  match libros with
  | [] => ret tt
  | libro :: resto =>
      linea <- elevar (linea_libro libro) ;;
      print linea ;;
      imprimir_lineas resto
  end.

Definition mostrar_libros_tabla (libros : list dict) : IO unit :=
  match libros with
  | [] => print (nl ++ " No hay libros registrados o no se encontraron resultados.")
  | _ =>
      print (separador "-") ;;
      print encabezado ;;
      print (separador "=") ;;
      imprimir_lineas libros ;;
      print (separador "-")
  end.

(** *** The handlers *)

Definition manejar_listado_libros : IO unit :=
  limpiar_pantalla ;;
  print (nl ++ "---  LISTADO COMPLETO DE LIBROS ---") ;;
  libros <- db.obtener_todos_los_libros ;;
  mostrar_libros_tabla libros.

Definition manejar_buscar_libros : IO unit :=
  limpiar_pantalla ;;
  print (nl ++ "---  BUSCAR LIBROS ---") ;;
  termino <- obtener_entrada
    (latin1 "Ingrese el término de búsqueda (título, autor o género): ") ;;
  libros <- db.buscar_libros termino ;;
  print (nl ++ latin1 "Resultados de la búsqueda para: '" ++ termino ++ "'") ;;
  mostrar_libros_tabla libros.

(** [campos = {'1': 'titulo', '2': 'autor', '3': 'genero', '4': 'estado'}] *)
Definition campos : list (string * string) :=
  [ ("1", "titulo"); ("2", "autor"); ("3", "genero"); ("4", "estado") ].

(** [campos[opcion]] when [opcion in campos]. *)
Fixpoint buscar_clave (d : list (string * string)) (clave : string) : option string :=
  match d with
  | [] => None
  | (k, v) :: d' => if (k =? clave)%string then Some v else buscar_clave d' clave
  end.

(** Python truth value of [error], a [str] or [None]. *)
Definition hay_error (error : option string) : bool :=
  match error with
  | Some s => no_vacia s
  | None => false
  end.

Inductive informe : Type :=
| Exito
| ErrorExplicito (error : string)
| SinActualizacion.

(** The [if exito / elif error / else] that closes [manejar_actualizar_libro]. *)
Definition clasificar (exito : bool) (error : option string) : informe :=
  if exito then Exito
  else if hay_error error
       then ErrorExplicito (match error with Some s => s | None => "None" end)
       else SinActualizacion.

Definition texto_informe (libro_id : Z) (i : informe) : string :=
  match i with
  | Exito => nl ++ " Libro ID " ++ de_entero libro_id ++ " actualizado exitosamente."
  | ErrorExplicito error => nl ++ " No se pudo actualizar el libro: " ++ error
  | SinActualizacion => nl ++ latin1 " No se realizó ninguna actualización."
  end.

Definition manejar_actualizar_libro : IO unit :=
  limpiar_pantalla ;;
  print (nl ++ "---  ACTUALIZAR LIBRO ---") ;;
  libros <- db.obtener_todos_los_libros ;;
  mostrar_libros_tabla libros ;;
  match libros with
  | [] => ret tt
  | _ =>
      libro_id <- obtener_id_valido (nl ++ "Ingrese el ID del libro a actualizar: ") ;;
      print (nl ++ latin1 "¿Qué campo desea actualizar?") ;;
      print (latin1 "1. Título") ;;
      print "2. Autor" ;;
      print (latin1 "3. Género") ;;
      print "4. Estado de lectura" ;;
      opcion <- obtener_entrada (latin1 "Seleccione una opción (1-4): ") ;;
      match buscar_clave campos opcion with
      | Some campo_a_actualizar =>
          nuevo_valor <-
            (if (campo_a_actualizar =? "estado")%string
             then pedir_estado (latin1 "Nuevo estado (1: Leído, 2: No leído): ")
                    (latin1 " Opción no válida. Use '1' o '2'.")
             else obtener_entrada ("Ingrese el nuevo valor para '"
                                   ++ capitalize campo_a_actualizar ++ "': ")) ;;
          r <- db.actualizar_libro libro_id campo_a_actualizar nuevo_valor ;;
          let (exito, error) := r : bool * option string in
          print (texto_informe libro_id (clasificar exito error))
      | None => print (latin1 " Opción no válida.")
      end
  end.

Definition manejar_eliminar_libro : IO unit :=
  limpiar_pantalla ;;
  print (nl ++ "---  ELIMINAR LIBRO ---") ;;
  libros <- db.obtener_todos_los_libros ;;
  mostrar_libros_tabla libros ;;
  match libros with
  | [] => ret tt
  | _ =>
      libro_id <- obtener_id_valido (nl ++ "Ingrese el ID del libro a eliminar: ") ;;
      linea <- input (latin1 " ¿Está seguro que desea eliminar el libro ID "
                      ++ de_entero libro_id ++ "? (s/N): ") ;;
      let confirmacion := lower linea in
      if (confirmacion =? "s")%string then
        ok <- db.eliminar_libro libro_id ;;
        if ok : bool
        then print (nl ++ " Libro ID " ++ de_entero libro_id ++ " eliminado exitosamente.")
        else print (nl ++ " Error al eliminar el libro o el ID no existe.")
      else print (nl ++ latin1 "Operación de eliminación cancelada.")
  end.

(** *** The main loop *)

Definition despedida : string :=
  nl ++ latin1 " ¡Gracias por usar el Administrador de Biblioteca! Saliendo...".

Definition opcion_no_valida : string :=
  nl ++ latin1 " Opción no válida. Por favor, ingrese un número del 1 al 6.".

(** The [if / elif] chain on the menu selection. *)
Definition despachar (opcion : string) : IO (paso unit) :=
  if (opcion =? "1")%string then manejar_agregar_libro ;; ret Sigue
  else if (opcion =? "2")%string then manejar_listado_libros ;; ret Sigue
  else if (opcion =? "3")%string then manejar_buscar_libros ;; ret Sigue
  else if (opcion =? "4")%string then manejar_actualizar_libro ;; ret Sigue
  else if (opcion =? "5")%string then manejar_eliminar_libro ;; ret Sigue
  else if (opcion =? "6")%string then print despedida ;; ret (Sale tt)
  else print opcion_no_valida ;; ret Sigue.

(** One turn of the loop: the menu, the selection, its handler. *)
Definition turno : IO (paso unit) :=
  mostrar_menu ;;
  linea <- input (latin1 "Seleccione una opción (1-6): ") ;;
  let opcion := strip linea in
  despachar opcion.

(** [main], once [LibroDBManager()] has opened its session. *)
Definition main : IO unit :=
  print (latin1 " Conexión a MariaDB/SQLAlchemy establecida correctamente.") ;;
  bucle turno.

(** ** Notions used to state the properties *)

(** Keys are unique and below the AUTO_INCREMENT counter. *)
Definition bd_ok (b : BaseDatos) : Prop :=
  NoDup (map id (filas b)) /\ Forall (fun l => id l < autoinc b) (filas b).

(** A collation orders texts totally and transitively. *)
Definition colacion_ok (col : string -> string -> bool) : Prop :=
  (forall a b, col a b = true \/ col b a = true)
  /\ (forall a b c, col a b = true -> col b c = true -> col a c = true).

(** The databases that the manager can build from the empty table. *)
Inductive alcanzable (col : string -> string -> bool) : BaseDatos -> Prop :=
| alc_vacia : alcanzable col (bd_vacia col)
| alc_insertar b titulo autor genero estado :
    alcanzable col b ->
    alcanzable col (fst (insertar_libro b titulo autor genero estado))
| alc_actualizar b libro_id campo nuevo_valor :
    alcanzable col b ->
    alcanzable col (fst (actualizar_libro b libro_id campo nuevo_valor))
| alc_eliminar b libro_id :
    alcanzable col b ->
    alcanzable col (fst (eliminar_libro b libro_id)).

(** [getattr(libro, campo)] on the mapped attributes. *)
Definition getattr (l : Libro) (campo : string) : option valor :=
  if (campo =? "id")%string then Some (VInt (id l))
  else if (campo =? "titulo")%string then Some (VStr (titulo l))
  else if (campo =? "autor")%string then Some (VStr (autor l))
  else if (campo =? "genero")%string then Some (valor_opcional (genero l))
  else if (campo =? "estado")%string then Some (VStr (estado l))
  else None.

Definition CAMPOS : list string := ["titulo"; "autor"; "genero"; "estado"].

(** The values that the column behind [campo] takes: a text within the bound
    of the column, and NULL for [genero] only. *)
Definition admisible (campo : string) (v : option string) : Prop :=
  match v with
  | Some s =>
      (campo = "titulo" /\ len s <= 255)%nat \/ (campo = "autor" /\ len s <= 255)%nat
      \/ (campo = "genero" /\ len s <= 100)%nat \/ (campo = "estado" /\ len s <= 20)%nat
  | None => campo = "genero"
  end.

(** The tuples that an INSERT accepts. *)
Definition tupla_valida (t a : string) (g : option string) (e : string) : Prop :=
  (len t <= 255)%nat /\ (len a <= 255)%nat
  /\ match g with Some s => (len s <= 100)%nat | None => True end
  /\ (len e <= 20)%nat.







(** [s] starts with [t]. *)
Fixpoint empieza_por (t s : string) : bool :=
  match t, s with
  | EmptyString, _ => true
  | String _ _, EmptyString => false
  | String c t', String d s' => Ascii.eqb c d && empieza_por t' s'
  end.

(** [t] occurs in [s]. *)
Fixpoint subcadena (t s : string) : bool :=
  empieza_por t s
  || match s with
     | String _ r => subcadena t r
     | EmptyString => false
     end.

(** The term is a substring of the title, the author or the genre, letter
    case apart. *)
Definition contiene_termino (termino : string) (l : Libro) : bool :=
  subcadena (lower termino) (lower (titulo l))
  || subcadena (lower termino) (lower (autor l))
  || match genero l with
     | Some g => subcadena (lower termino) (lower g)
     | None => false
     end.

Definition es_comodin (c : ascii) : bool :=
  Ascii.eqb c "%" || Ascii.eqb c "_" || Ascii.eqb c "\".

(** No character of the text has a meaning of its own in a LIKE pattern. *)
Fixpoint sin_comodines (s : string) : bool :=
  match s with
  | EmptyString => true
  | String c r => negb (es_comodin c) && sin_comodines r
  end.

(** The pattern that spells a text character by character. *)
Fixpoint literales (s : string) : list ficha :=
  match s with
  | EmptyString => []
  | String c r => Literal c :: literales r
  end.

(** [t] is what the table shows of [s] in a column [ancho] wide: [s] itself,
    or its first [ancho - 3] characters and an ellipsis. *)
Definition recorte (ancho : nat) (s t : string) : Prop :=
  ((len s <= ancho)%nat /\ t = s)
  \/ ((ancho < len s)%nat /\ t = hasta s (ancho - 3) ++ "..." /\ len t = ancho).

(** The line of the table for a row whose three texts are shown as [t], [a]
    and [g]. *)
Definition linea_de (l : Libro) (t a g : string) : string :=
  "| " ++ ljust (de_entero (id l)) 4 ++ " | " ++ ljust t 39 ++ " | "
  ++ ljust a 24 ++ " | " ++ ljust g 14 ++ " | " ++ ljust (estado l) 11 ++ " |".

(** [x] is the line of the table for the row [l]: key and status in full,
    title, author and genre cut to their columns. *)
Definition linea_recortada (l : Libro) (x : string) : Prop :=
  exists t a g g',
    genero l = Some g
    /\ recorte COL_TITULO (titulo l) t /\ recorte COL_AUTOR (autor l) a
    /\ recorte COL_GENERO g g' /\ x = linea_de l t a g'.

(** What [len(None)] raises. *)
Definition error_len_none : excepcion :=
  TypeError "object of type 'NoneType' has no len()".

Definition sin_libros : string :=
  nl ++ " No hay libros registrados o no se encontraron resultados.".

Definition escribe_todo (evs : list evento) (w : mundo) : mundo :=
  {| bd := bd w; entradas := entradas w; salida := salida w ++ evs |}.

Definition tiene_genero (l : Libro) : bool :=
  match genero l with
  | Some _ => true
  | None => false
  end.

(** The head of a table: rule, titles, rule. *)
Definition cabecera : list evento :=
  [Imprime (separador "-"); Imprime encabezado; Imprime (separador "=")].

(** What [mostrar_menu] writes. *)
Definition menu : list evento :=
  [ Imprime (nl ++ repetir "=" 50);
    Imprime " Administrador de Biblioteca (MariaDB + SQLAlchemy)";
    Imprime (repetir "=" 50);
    Imprime "1.  Agregar nuevo libro";
    Imprime "2.  Ver listado de libros";
    Imprime "3.  Buscar libros";
    Imprime (latin1 "4.  Actualizar información de un libro");
    Imprime "5.  Eliminar libro existente";
    Imprime "6.  Salir";
    Imprime (repetir "=" 50) ].

(** The world in which the selection is dispatched: the menu and the prompt
    are written, the line is read. *)
Definition tras_menu (w : mundo) (resto : list string) : mundo :=
  {| bd := bd w; entradas := resto;
     salida := salida w ++ menu ++ [Pregunta (latin1 "Seleccione una opción (1-6): ")] |}.

Definition OPCIONES : list string := ["1"; "2"; "3"; "4"; "5"; "6"].

(** The lines left to type never grow, and the fuel of no loop runs out. *)
Definition no_crece {A} (c : IO A) : Prop :=
  forall w,
    match c w with
    | Hecho _ w' => (List.length (entradas w') <= List.length (entradas w))%nat
    | Falla _ _ => True
    | Agotado => False
    end.

(** The same, and a line at least is read before the computation returns. *)
Definition consume {A} (c : IO A) : Prop :=
  forall w,
    match c w with
    | Hecho _ w' => (List.length (entradas w') < List.length (entradas w))%nat
    | Falla _ _ => True
    | Agotado => False
    end.

(** *** Sample data *)

Definition colacion_binaria : string -> string -> bool := String.leb.

Definition libro_cien : Libro :=
  mkLibro 1 (latin1 "Cien años de soledad") (latin1 "García Márquez")
    (Some "Novela") (latin1 "No leído").

Definition libro_abc : Libro := mkLibro 2 "abc" "Anon" None (latin1 "Leído").

Definition bd_ejemplo : BaseDatos :=
  {| colacion := colacion_binaria; filas := [libro_cien; libro_abc]; autoinc := 3 |}.

Definition titulo_largo : string := repetir "a" 256.

Definition libro_id_grande : Libro :=
  mkLibro 123456 "Rayuela" (latin1 "Cortázar") (Some "Novela") (latin1 "Leído").

Definition mundo_ejemplo (lineas : list string) : mundo :=
  {| bd := bd_ejemplo; entradas := lineas; salida := [] |}.






(** *** Notions for the further properties *)

(** A row within the bounds of its columns. *)
Definition fila_en_columnas (l : Libro) : Prop :=
  (len (titulo l) <= 255)%nat /\ (len (autor l) <= 255)%nat
  /\ match genero l with Some g => (len g <= 100)%nat | None => True end
  /\ (len (estado l) <= 20)%nat.

(** A row as the console writes it: a title and an author that are not
    empty, a genre, and one of the two reading states. *)
Definition fila_consola (l : Libro) : Prop :=
  titulo l <> "" /\ autor l <> "" /\ (exists g, genero l = Some g /\ g <> "")
  /\ (estado l = fst ESTADOS_LECTURA \/ estado l = snd ESTADOS_LECTURA).

Definition bd_consola (b : BaseDatos) : Prop := Forall fila_consola (filas b).

(** From a database that satisfies [I], the computation ends in a database
    that satisfies [I], with a result that satisfies [Q] when it returns. *)
Definition conserva (I : BaseDatos -> Prop) {A} (c : IO A) (Q : A -> Prop) : Prop :=
  forall w, I (bd w) ->
    match c w with
    | Hecho a w' => I (bd w') /\ Q a
    | Falla _ w' => I (bd w')
    | Agotado => True
    end.

(** What [obtener_entrada] writes for each blank line. *)
Definition queja_vacia : string :=
  latin1 " La entrada no puede estar vacía. Intente de nuevo.".

Definition es_blanca (linea : string) : bool := negb (no_vacia (strip linea)).

(** One turn of the loop of [obtener_entrada]. *)
Definition cuerpo_obtener_entrada (prompt : string) : IO (paso string) :=
  linea <- input prompt ;;
  let entrada := strip linea in
  if no_vacia entrada then ret (Sale entrada)
  else print queja_vacia ;; ret Sigue.

(** The text is made of [%] only; the empty text is. *)
Fixpoint todo_porcentaje (s : string) : bool :=
  match s with
  | EmptyString => true
  | String c r => Ascii.eqb c "%" && todo_porcentaje r
  end.

(** A session at the console, from the empty table. *)
Definition sesion_ejemplo : mundo :=
  {| bd := bd_vacia colacion_binaria;
     entradas := ["1"; " Rayuela "; latin1 "Cortázar"; ""; "Novela"; "3"; "2";
                  "4"; "1"; "1"; "El perseguidor"; "6"];
     salida := [] |}.

(** The same as [conserva], for a property of the whole world. *)
Definition conserva_mundo (J : mundo -> Prop) {A} (c : IO A) (Q : A -> Prop) : Prop :=
  forall w, J w ->
    match c w with
    | Hecho a w' => J w' /\ Q a
    | Falla _ w' => J w'
    | Agotado => True
    end.

(** The database is [b0] and every line still to be typed satisfies [P]. *)
Definition lineas_en (b0 : BaseDatos) (P : string -> Prop) (w : mundo) : Prop :=
  bd w = b0 /\ Forall P (entradas w).

(** A table as the console builds it, and a world over it. *)
Definition libro_rayuela : Libro :=
  mkLibro 2 "Rayuela" (latin1 "Cortázar") (Some "Novela") (latin1 "Leído").

Definition bd_dos : BaseDatos :=
  {| colacion := colacion_binaria; filas := [libro_cien; libro_rayuela]; autoinc := 3 |}.

Definition mundo_dos (lineas : list string) : mundo :=
  {| bd := bd_dos; entradas := lineas; salida := [] |}.

(** * Properties *)

(** ** Rows and keys *)

Lemma tiene_id_spec n l : tiene_id n l = true <-> id l = n.
Proof. unfold tiene_id. apply Z.eqb_eq. Qed.

Lemma obtener_es_fila b n l :
  obtener_libro_por_id b n = Some l -> In l (filas b) /\ id l = n.
Proof.
  unfold obtener_libro_por_id. intros H.
  apply find_some in H. destruct H as [Hin Hid].
  split; [assumption | now apply tiene_id_spec].
Qed.

Lemma obtener_ninguno b n :
  obtener_libro_por_id b n = None <-> ~ In n (map id (filas b)).
Proof.
  unfold obtener_libro_por_id. split.
  - intros H Hin. apply in_map_iff in Hin. destruct Hin as [l [Hid Hl]].
    pose proof (find_none _ _ H l Hl) as Hf.
    apply tiene_id_spec in Hid. congruence.
  - intros H. destruct (find (tiene_id n) (filas b)) as [l|] eqn:E; [|reflexivity].
    apply find_some in E. destruct E as [Hin Hid]. apply tiene_id_spec in Hid.
    exfalso. apply H. apply in_map_iff. now exists l.
Qed.

Lemma find_modificar n m f fs :
  (forall l, id (f l) = id l) ->
  find (tiene_id m) (modificar n f fs)
  = if m =? n then option_map f (find (tiene_id m) fs) else find (tiene_id m) fs.
Proof.
  intros Hf. unfold modificar, tiene_id.
  induction fs as [|x fs IH]; simpl.
  - now destruct (m =? n).
  - destruct (id x =? n) eqn:Exn.
    + rewrite Hf. destruct (id x =? m) eqn:Exm.
      * apply Z.eqb_eq in Exn, Exm. subst. now rewrite Z.eqb_refl.
      * exact IH.
    + destruct (id x =? m) eqn:Exm; [|exact IH].
      apply Z.eqb_eq in Exm. apply Z.eqb_neq in Exn. subst.
      destruct (id x =? n) eqn:E; [apply Z.eqb_eq in E; contradiction | reflexivity].
Qed.

Lemma map_id_modificar n f fs :
  (forall l, id (f l) = id l) -> map id (modificar n f fs) = map id fs.
Proof.
  intros Hf. unfold modificar. rewrite map_map. apply map_ext.
  intros l. destruct (tiene_id n l); [apply Hf | reflexivity].
Qed.

Lemma find_nueva_fila n fs l :
  Forall (fun x => id x < n) fs -> id l = n ->
  find (tiene_id n) (fs ++ [l]) = Some l.
Proof.
  intros Hall Hid. induction Hall as [|x fs Hx Hall IH]; simpl.
  - unfold tiene_id. rewrite Hid, Z.eqb_refl. reflexivity.
  - unfold tiene_id at 1. destruct (id x =? n) eqn:E.
    + apply Z.eqb_eq in E. lia.
    + exact IH.
Qed.

Lemma find_fila_anterior m fs l :
  m <> id l -> find (tiene_id m) (fs ++ [l]) = find (tiene_id m) fs.
Proof.
  intros Hne. induction fs as [|x fs IH]; simpl.
  - unfold tiene_id. destruct (id l =? m) eqn:E; [|reflexivity].
    apply Z.eqb_eq in E. congruence.
  - destruct (tiene_id m x); [reflexivity | exact IH].
Qed.

(** ** Columns *)

Lemma texto_obligatorio_cabe columna limite s :
  (len s <= limite)%nat -> texto_obligatorio columna limite (Some s) = Devuelve s.
Proof.
  intros H. unfold texto_obligatorio.
  destruct (Nat.ltb_spec limite (len s)); [lia | reflexivity].
Qed.

Lemma texto_obligatorio_largo columna limite s :
  (limite < len s)%nat ->
  texto_obligatorio columna limite (Some s)
  = Lanza (DataError ("Data too long for column '" ++ columna ++ "'")).
Proof.
  intros H. unfold texto_obligatorio.
  destruct (Nat.ltb_spec limite (len s)); [reflexivity | lia].
Qed.

Lemma texto_opcional_cabe columna limite g :
  match g with Some s => (len s <= limite)%nat | None => True end ->
  texto_opcional columna limite g = Devuelve g.
Proof.
  destruct g as [s|]; simpl; [|reflexivity].
  intros H. destruct (Nat.ltb_spec limite (len s)); [lia | reflexivity].
Qed.

(** ** The invariant of the table *)

Lemma bd_vacia_ok col : bd_ok (bd_vacia col).
Proof. split; simpl; constructor. Qed.

Lemma sql_insert_ok b t a g e b' :
  bd_ok b -> sql_insert b t a g e = Devuelve b' -> bd_ok b'.
Proof.
  intros [Hnd Hlt] H. unfold sql_insert, ligar in H.
  destruct (texto_obligatorio "titulo" 255 t); [|discriminate].
  destruct (texto_obligatorio "autor" 255 a); [|discriminate].
  destruct (texto_opcional "genero" 100 g); [|discriminate].
  destruct (texto_obligatorio "estado" 20 e); [|discriminate].
  injection H as <-. split; simpl.
  - rewrite map_app. simpl. apply NoDup_app_remove_l with (l := []).
    apply Permutation_NoDup with (l := autoinc b :: map id (filas b)).
    + simpl. apply Permutation_cons_append.
    + constructor; [|assumption].
      intros Hin. apply in_map_iff in Hin. destruct Hin as [l [Hid Hl]].
      rewrite Forall_forall in Hlt. specialize (Hlt l Hl). lia.
  - apply Forall_app. split.
    + eapply Forall_impl; [|exact Hlt]. simpl. intros; lia.
    + constructor; [simpl; lia | constructor].
Qed.

Lemma con_filas_modificar_ok b n f :
  (forall l, id (f l) = id l) -> bd_ok b ->
  bd_ok (con_filas b (modificar n f (filas b))).
Proof.
  intros Hf [Hnd Hlt]. split; simpl.
  - now rewrite map_id_modificar.
  - unfold modificar. apply Forall_map. eapply Forall_impl; [|exact Hlt].
    simpl. intros l Hl. destruct (tiene_id n l); [rewrite Hf|]; exact Hl.
Qed.

Lemma NoDup_map_modificar_clave n k (fs : list Libro) f :
  (forall l, id (f l) = k) ->
  NoDup (map id fs) -> ~ In k (map id fs) ->
  NoDup (map id (modificar n f fs)).
Proof.
  intros Hf Hnd Hk. induction fs as [|x fs IH]; simpl; [constructor|].
  inversion Hnd as [|? ? Hx Hnd']; subst.
  assert (Hrest : forall y, In y (map id (modificar n f fs)) ->
                            y = k \/ In y (map id fs)).
  { intros y Hy. apply in_map_iff in Hy. destruct Hy as [l [Hl Hin]].
    unfold modificar in Hin. apply in_map_iff in Hin.
    destruct Hin as [l0 [Hl0 Hin0]]. subst l y.
    destruct (tiene_id n l0); [left; apply Hf | right; now apply in_map]. }
  destruct (tiene_id n x) eqn:Ex.
  - (* the row that moves: no other row carries its old key *)
    assert (Hsame : modificar n f fs = fs).
    { apply tiene_id_spec in Ex. unfold modificar.
      rewrite <- (map_id fs) at 2. apply map_ext_in.
      intros l Hl. destruct (tiene_id n l) eqn:El; [|reflexivity].
      apply tiene_id_spec in El. exfalso. apply Hx.
      apply in_map_iff. exists l. split; [congruence | assumption]. }
    rewrite Hsame, Hf. constructor; [|assumption].
    intros Hin. apply Hk. now right.
  - constructor.
    + intros Hin. apply Hrest in Hin. destruct Hin as [Heq | Hin].
      * apply Hk. left. exact Heq.
      * contradiction.
    + apply IH; [assumption|]. intros Hin. apply Hk. now right.
Qed.

Lemma sql_update_ok b l campo v b' :
  bd_ok b -> sql_update b l campo v = Devuelve b' -> bd_ok b'.
Proof.
  intros Hok H. unfold sql_update, ligar in H.
  destruct (campo =? "titulo")%string.
  { destruct (texto_obligatorio "titulo" 255 v); [|discriminate].
    injection H as <-. now apply con_filas_modificar_ok. }
  destruct (campo =? "autor")%string.
  { destruct (texto_obligatorio "autor" 255 v); [|discriminate].
    injection H as <-. now apply con_filas_modificar_ok. }
  destruct (campo =? "genero")%string.
  { destruct (texto_opcional "genero" 100 v); [|discriminate].
    injection H as <-. now apply con_filas_modificar_ok. }
  destruct (campo =? "estado")%string.
  { destruct (texto_obligatorio "estado" 20 v); [|discriminate].
    injection H as <-. now apply con_filas_modificar_ok. }
  destruct (campo =? "id")%string;
    [|destruct (setattr_no_mapeado campo); [injection H as <-; exact Hok | discriminate]].
  destruct v as [s|]; [|discriminate].
  destruct (entero_sql s) as [n|]; [|discriminate].
  destruct (n =? id l); [injection H as <-; exact Hok|].
  destruct (existsb (tiene_id n) (filas b)) eqn:Ex; [discriminate|].
  injection H as <-. destruct Hok as [Hnd Hlt]. split; simpl.
  - apply NoDup_map_modificar_clave with (k := n); [reflexivity | assumption |].
    intros Hin. apply in_map_iff in Hin. destruct Hin as [x [Hx Hin]].
    assert (existsb (tiene_id n) (filas b) = true).
    { apply existsb_exists. exists x. split; [assumption | now apply tiene_id_spec]. }
    congruence.
  - unfold modificar. apply Forall_map. eapply Forall_impl; [|exact Hlt].
    simpl. intros x Hx. destruct (tiene_id (id l) x); simpl; lia.
Qed.

Lemma sql_delete_ok b l b' :
  bd_ok b -> sql_delete b l = Devuelve b' -> bd_ok b'.
Proof.
  intros [Hnd Hlt] H. injection H as <-. split; simpl.
  - clear Hlt. induction (filas b) as [|x fs IH]; simpl; [constructor|].
    inversion Hnd as [|? ? Hx Hnd']; subst.
    destruct (negb (tiene_id (id l) x)); simpl; [|now apply IH].
    constructor; [|now apply IH].
    intros Hin. apply Hx. apply in_map_iff in Hin. destruct Hin as [y [Hy Hin]].
    apply filter_In in Hin. apply in_map_iff. exists y. tauto.
  - apply Forall_forall. intros x Hx. apply filter_In in Hx.
    rewrite Forall_forall in Hlt. apply Hlt. tauto.
Qed.

Lemma insertar_libro_ok b t a g e :
  bd_ok b -> bd_ok (fst (insertar_libro b t a g e)).
Proof.
  intros Hok. unfold insertar_libro.
  destruct (sql_insert b t a g e) as [b'|ex] eqn:E.
  - simpl. eapply sql_insert_ok; eassumption.
  - destruct ex; exact Hok.
Qed.

Lemma actualizar_libro_ok b n campo v :
  bd_ok b -> bd_ok (fst (actualizar_libro b n campo v)).
Proof.
  intros Hok. unfold actualizar_libro.
  destruct (obtener_libro_por_id b n) as [l|]; [|exact Hok].
  destruct (sql_update b l campo v) as [b'|ex] eqn:E; [|exact Hok].
  simpl. eapply sql_update_ok; eassumption.
Qed.

Lemma eliminar_libro_ok b n :
  bd_ok b -> bd_ok (fst (eliminar_libro b n)).
Proof.
  intros Hok. unfold eliminar_libro.
  destruct (obtener_libro_por_id b n) as [l|]; [|exact Hok].
  simpl. eapply sql_delete_ok; [eassumption | reflexivity].
Qed.

(** Every database that the manager builds keeps its keys unique and below
    the counter. *)
Lemma alcanzable_ok col b : alcanzable col b -> bd_ok b.
Proof.
  induction 1.
  - apply bd_vacia_ok.
  - now apply insertar_libro_ok.
  - now apply actualizar_libro_ok.
  - now apply eliminar_libro_ok.
Qed.

(** ** Create and read back *)

(** C1.  On a table whose keys are below the counter, inserting a valid
    (title, author, genre, status) succeeds; the row read back under the new
    key carries exactly the inserted values; the new key is the key of no row
    that was there before; every other key reads as before. *)
Theorem insertar_luego_obtener b t a g e :
  bd_ok b -> tupla_valida t a g e ->
  let r := insertar_libro b (Some t) (Some a) g (Some e) in
  snd r = Devuelve true
  /\ obtener_libro_por_id (fst r) (autoinc b) = Some (mkLibro (autoinc b) t a g e)
  /\ ~ In (autoinc b) (map id (filas b))
  /\ (forall n, n <> autoinc b ->
        obtener_libro_por_id (fst r) n = obtener_libro_por_id b n)
  /\ bd_ok (fst r).
Proof.
  intros Hok (Ht & Ha & Hg & He). cbv zeta.
  assert (Hins : sql_insert b (Some t) (Some a) g (Some e)
                 = Devuelve {| colacion := colacion b;
                               filas := filas b ++ [mkLibro (autoinc b) t a g e];
                               autoinc := autoinc b + 1 |}).
  { unfold sql_insert.
    rewrite (texto_obligatorio_cabe "titulo" 255 t Ht).
    rewrite (texto_obligatorio_cabe "autor" 255 a Ha).
    rewrite (texto_opcional_cabe "genero" 100 g Hg).
    rewrite (texto_obligatorio_cabe "estado" 20 e He).
    reflexivity. }
  pose proof (insertar_libro_ok b (Some t) (Some a) g (Some e) Hok) as Hok'.
  unfold insertar_libro in *. rewrite Hins in *. simpl in *.
  destruct Hok as [Hnd Hlt].
  split; [reflexivity|]. split; [|split; [|split]].
  - unfold obtener_libro_por_id. simpl. now apply find_nueva_fila.
  - intros Hin. apply in_map_iff in Hin. destruct Hin as [l [Hid Hl]].
    rewrite Forall_forall in Hlt. specialize (Hlt l Hl). lia.
  - intros n Hn. unfold obtener_libro_por_id. simpl.
    now apply find_fila_anterior.
  - exact Hok'.
Qed.

Lemma bd_ejemplo_ok : bd_ok bd_ejemplo.
Proof.
  split; simpl.
  - repeat constructor; simpl; intuition discriminate.
  - repeat constructor.
Qed.

Lemma insertar_luego_obtener_witness :
  let r := insertar_libro bd_ejemplo (Some "Rayuela") (Some "Julio") None (Some "x") in
  snd r = Devuelve true
  /\ obtener_libro_por_id (fst r) 3 = Some (mkLibro 3 "Rayuela" "Julio" None "x")
  /\ ~ In 3 (map id (filas bd_ejemplo))
  /\ (forall n, n <> 3 ->
        obtener_libro_por_id (fst r) n = obtener_libro_por_id bd_ejemplo n)
  /\ bd_ok (fst r).
Proof.
  apply (insertar_luego_obtener bd_ejemplo "Rayuela" "Julio" None "x").
  - exact bd_ejemplo_ok.
  - unfold tupla_valida. simpl. lia.
Defined.

(** ** Update *)

Lemma obtener_tras_modificar b n l f :
  (forall x, id (f x) = id x) ->
  obtener_libro_por_id b n = Some l ->
  obtener_libro_por_id (con_filas b (modificar (id l) f (filas b))) n = Some (f l).
Proof.
  intros Hf H. pose proof (obtener_es_fila _ _ _ H) as [_ Hid].
  unfold obtener_libro_por_id in *. simpl.
  rewrite find_modificar by exact Hf.
  rewrite Hid, Z.eqb_refl, H. reflexivity.
Qed.

(** The attributes of a rewritten row that the rewriting did not name. *)
Ltac marco :=
  let c := fresh "c" in
  let Hc := fresh "Hc" in
  intros c Hc; unfold getattr; simpl;
  repeat match goal with
         | |- context [String.eqb c ?k] =>
             destruct (String.eqb_spec c k); try congruence; try reflexivity
         end.

Lemma actualizar_campo_admisible b n l campo v :
  obtener_libro_por_id b n = Some l -> admisible campo v ->
  exists f,
    (forall x, id (f x) = id x)
    /\ actualizar_libro b n campo v
       = (con_filas b (modificar (id l) f (filas b)), (true, None))
    /\ getattr (f l) campo = Some (valor_opcional v)
    /\ forall c, c <> campo -> getattr (f l) c = getattr l c.
Proof.
  intros H Hadm. unfold actualizar_libro. rewrite H.
  destruct v as [s|]; simpl in Hadm.
  - destruct Hadm as [[-> Hs] | [[-> Hs] | [[-> Hs] | [-> Hs]]]].
    + exists (fun x => mkLibro (id x) s (autor x) (genero x) (estado x)).
      unfold sql_update. simpl String.eqb.
      rewrite (texto_obligatorio_cabe "titulo" 255 s Hs). simpl.
      split; [intro; reflexivity | split; [reflexivity | split; [reflexivity | marco]]].
    + exists (fun x => mkLibro (id x) (titulo x) s (genero x) (estado x)).
      unfold sql_update. simpl String.eqb.
      rewrite (texto_obligatorio_cabe "autor" 255 s Hs). simpl.
      split; [intro; reflexivity | split; [reflexivity | split; [reflexivity | marco]]].
    + exists (fun x => mkLibro (id x) (titulo x) (autor x) (Some s) (estado x)).
      unfold sql_update. simpl String.eqb.
      rewrite (texto_opcional_cabe "genero" 100 (Some s)) by exact Hs. simpl.
      split; [intro; reflexivity | split; [reflexivity | split; [reflexivity | marco]]].
    + exists (fun x => mkLibro (id x) (titulo x) (autor x) (genero x) s).
      unfold sql_update. simpl String.eqb.
      rewrite (texto_obligatorio_cabe "estado" 20 s Hs). simpl.
      split; [intro; reflexivity | split; [reflexivity | split; [reflexivity | marco]]].
  - subst campo.
    exists (fun x => mkLibro (id x) (titulo x) (autor x) None (estado x)).
    unfold sql_update. simpl.
    split; [intro; reflexivity | split; [reflexivity | split; [reflexivity | marco]]].
Qed.

(** C3, amended.  For an existing key, a field among title, author, genre and
    status, and a value that the column of the field admits, the update
    succeeds and the row read back carries the value in that field, with its
    key and its other fields as before; the rows under other keys read as
    before. *)
Theorem actualizar_luego_obtener b n l campo v :
  obtener_libro_por_id b n = Some l -> admisible campo v ->
  let r := actualizar_libro b n campo v in
  snd r = (true, None)
  /\ (exists l', obtener_libro_por_id (fst r) n = Some l'
        /\ getattr l' campo = Some (valor_opcional v)
        /\ forall c, c <> campo -> getattr l' c = getattr l c)
  /\ forall m, m <> n -> obtener_libro_por_id (fst r) m = obtener_libro_por_id b m.
Proof.
  intros H Hadm. cbv zeta.
  destruct (actualizar_campo_admisible b n l campo v H Hadm)
    as (f & Hf & -> & Hset & Hframe).
  simpl. split; [reflexivity|]. split.
  - exists (f l). split; [|split; assumption].
    now apply obtener_tras_modificar.
  - intros m Hm. unfold obtener_libro_por_id. simpl.
    rewrite find_modificar by exact Hf.
    pose proof (obtener_es_fila _ _ _ H) as [_ Hid]. rewrite Hid.
    destruct (Z.eqb_spec m n); [contradiction | reflexivity].
Qed.

Lemma actualizar_luego_obtener_witness :
  let r := actualizar_libro bd_ejemplo 2 "genero" (Some "Ensayo") in
  snd r = (true, None)
  /\ (exists l', obtener_libro_por_id (fst r) 2 = Some l'
        /\ getattr l' "genero" = Some (valor_opcional (Some "Ensayo"))
        /\ forall c, c <> "genero" -> getattr l' c = getattr libro_abc c)
  /\ forall m, m <> 2 ->
       obtener_libro_por_id (fst r) m = obtener_libro_por_id bd_ejemplo m.
Proof.
  apply (actualizar_luego_obtener bd_ejemplo 2 libro_abc "genero" (Some "Ensayo")).
  - reflexivity.
  - simpl. right. right. left. split; [reflexivity | lia].
Defined.

(** C3, as first stated, fails on a title of 256 characters: the column holds
    255, the update is refused and the row keeps its title. *)
Lemma actualizar_titulo_largo :
  obtener_libro_por_id bd_ejemplo 1 = Some libro_cien
  /\ fst (snd (actualizar_libro bd_ejemplo 1 "titulo" (Some titulo_largo))) = false
  /\ obtener_libro_por_id
       (fst (actualizar_libro bd_ejemplo 1 "titulo" (Some titulo_largo))) 1
     = Some libro_cien
  /\ titulo libro_cien <> titulo_largo.
Proof.
  repeat split; try (vm_compute; reflexivity).
  vm_compute. discriminate.
Qed.

(** ** Keys that are not in the table *)

(** C5.  When no row has the key, the update answers with the failure
    "Libro no encontrado." and the deletion with [False], and both leave the
    database exactly as it was. *)
Theorem clave_ausente b n campo v :
  obtener_libro_por_id b n = None ->
  actualizar_libro b n campo v = (b, (false, Some "Libro no encontrado."))
  /\ eliminar_libro b n = (b, false).
Proof.
  intros H. unfold actualizar_libro, eliminar_libro. rewrite H. split; reflexivity.
Qed.

Lemma clave_ausente_witness :
  actualizar_libro bd_ejemplo 7 "titulo" (Some "Otro")
  = (bd_ejemplo, (false, Some "Libro no encontrado."))
  /\ eliminar_libro bd_ejemplo 7 = (bd_ejemplo, false).
Proof.
  apply (clave_ausente bd_ejemplo 7 "titulo" (Some "Otro")). reflexivity.
Defined.

(** ** The outcomes of an update *)

Lemma actualizar_resultado b n campo v :
  snd (actualizar_libro b n campo v) = (true, None)
  \/ exists m, snd (actualizar_libro b n campo v) = (false, Some m)
               /\ no_vacia m = true.
Proof.
  unfold actualizar_libro.
  destruct (obtener_libro_por_id b n) as [l|].
  - destruct (sql_update b l campo v) as [b'|e].
    + left. reflexivity.
    + right. eexists. split; reflexivity.
  - right. eexists. split; reflexivity.
Qed.

(** C7, as first stated, fails: no database, key, field and value make
    [actualizar_libro] return [(False, None)]. *)
Lemma actualizar_nunca_false_none :
  ~ exists b n campo v, snd (actualizar_libro b n campo v) = (false, None).
Proof.
  intros (b & n & campo & v & H).
  destruct (actualizar_resultado b n campo v) as [E | [m [E _]]];
    rewrite E in H; discriminate.
Qed.

(** C7, amended.  An update has two outcomes: success, or a failure that
    carries a message which is not empty.  The console handler therefore
    reports a success or an error, never its third text. *)
Theorem actualizar_dos_resultados b n campo v :
  let r := snd (actualizar_libro b n campo v) in
  (r = (true, None) /\ clasificar (fst r) (snd r) = Exito)
  \/ (exists m, r = (false, Some m) /\ m <> ""
                /\ clasificar (fst r) (snd r) = ErrorExplicito m).
Proof.
  cbv zeta.
  destruct (actualizar_resultado b n campo v) as [E | [m [E Hm]]]; rewrite E.
  - left. split; reflexivity.
  - right. exists m. split; [reflexivity|]. split.
    + intros ->. discriminate.
    + unfold clasificar. simpl. rewrite Hm. reflexivity.
Qed.

(** ** The console: every loop ends *)

Lemma consume_no_crece {A} (c : IO A) : consume c -> no_crece c.
Proof.
  intros H w. specialize (H w). destruct (c w); auto. lia.
Qed.

Lemma no_crece_ret {A} (a : A) : no_crece (ret a).
Proof. intros w. simpl. lia. Qed.

Lemma no_crece_print texto : no_crece (print texto).
Proof. intros w. simpl. lia. Qed.

Lemma no_crece_limpiar : no_crece limpiar_pantalla.
Proof. intros w. simpl. lia. Qed.

Lemma no_crece_elevar {A} (r : resultado A) : no_crece (elevar r).
Proof. intros w. unfold elevar. destruct r; simpl; auto. Qed.

Lemma consume_input prompt : consume (input prompt).
Proof. intros w. unfold input. destruct (entradas w); simpl; auto. Qed.

Lemma no_crece_bind {A B} (c : IO A) (k : A -> IO B) :
  no_crece c -> (forall a, no_crece (k a)) -> no_crece (bind c k).
Proof.
  intros Hc Hk w. unfold bind. specialize (Hc w).
  destruct (c w) as [a w'| |]; auto.
  specialize (Hk a w'). destruct (k a w'); auto. lia.
Qed.

Lemma consume_bind_l {A B} (c : IO A) (k : A -> IO B) :
  consume c -> (forall a, no_crece (k a)) -> consume (bind c k).
Proof.
  intros Hc Hk w. unfold bind. specialize (Hc w).
  destruct (c w) as [a w'| |]; auto.
  specialize (Hk a w'). destruct (k a w'); auto. lia.
Qed.

Lemma consume_bind_r {A B} (c : IO A) (k : A -> IO B) :
  no_crece c -> (forall a, consume (k a)) -> consume (bind c k).
Proof.
  intros Hc Hk w. unfold bind. specialize (Hc w).
  destruct (c w) as [a w'| |]; auto.
  specialize (Hk a w'). destruct (k a w'); auto. lia.
Qed.

Lemma while_true_consume {A} (cuerpo : IO (paso A)) :
  consume cuerpo ->
  forall n w, (List.length (entradas w) < n)%nat ->
    match while_true n cuerpo w with
    | Hecho _ w' => (List.length (entradas w') < List.length (entradas w))%nat
    | Falla _ _ => True
    | Agotado => False
    end.
Proof.
  intros Hc. induction n as [|n IH]; intros w Hn; [lia|].
  simpl. unfold bind. specialize (Hc w).
  destruct (cuerpo w) as [[|a] w'| |]; auto.
  assert (Hn' : (List.length (entradas w') < n)%nat) by lia.
  specialize (IH w' Hn'). destruct (while_true n cuerpo w'); auto. lia.
Qed.

Lemma consume_bucle {A} (cuerpo : IO (paso A)) :
  consume cuerpo -> consume (bucle cuerpo).
Proof.
  intros Hc w. unfold bucle. apply while_true_consume; [assumption | lia].
Qed.

(** Settle [no_crece] and [consume] along the structure of a computation. *)
Ltac avance :=
  repeat first
    [ match goal with |- forall _, _ => intro end
    | apply no_crece_ret | apply no_crece_print | apply no_crece_limpiar
    | apply no_crece_elevar | apply consume_input
    | match goal with H : _ |- _ => apply H end
    | apply consume_bucle
    | apply no_crece_bind
    | apply consume_bind_l; [solve [avance] | ]
    | apply consume_bind_r; [solve [avance] | ]
    | match goal with
      | |- no_crece (if ?b then _ else _) => destruct b
      | |- consume (if ?b then _ else _) => destruct b
      | |- no_crece (match ?x with _ => _ end) => destruct x
      | |- consume (match ?x with _ => _ end) => destruct x
      end
    | apply consume_no_crece; solve [avance] ].

Lemma no_crece_db_obtener_libro_por_id n : no_crece (db.obtener_libro_por_id n).
Proof. intros w. simpl. lia. Qed.

Lemma no_crece_db_obtener_todos : no_crece db.obtener_todos_los_libros.
Proof. intros w. simpl. lia. Qed.

Lemma no_crece_db_buscar termino : no_crece (db.buscar_libros termino).
Proof. intros w. simpl. lia. Qed.

Lemma no_crece_db_insertar t a g e : no_crece (db.insertar_libro t a g e).
Proof.
  intros w. unfold db.insertar_libro.
  destruct (insertar_libro (bd w) (Some t) (Some a) (Some g) (Some e)) as [b [x|ex]];
    simpl; auto.
Qed.

Lemma no_crece_db_actualizar n campo v : no_crece (db.actualizar_libro n campo v).
Proof.
  intros w. unfold db.actualizar_libro.
  destruct (actualizar_libro (bd w) n campo (Some v)). simpl. lia.
Qed.

Lemma no_crece_db_eliminar n : no_crece (db.eliminar_libro n).
Proof.
  intros w. unfold db.eliminar_libro.
  destruct (eliminar_libro (bd w) n). simpl. lia.
Qed.

Lemma consume_obtener_entrada prompt : consume (obtener_entrada prompt).
Proof. unfold obtener_entrada. avance. Qed.

Lemma consume_obtener_id_valido mensaje : consume (obtener_id_valido mensaje).
Proof.
  unfold obtener_id_valido. apply consume_bucle.
  apply consume_bind_l; [apply consume_obtener_entrada|].
  intros texto. destruct (a_entero texto); [|avance].
  apply no_crece_bind; [apply no_crece_db_obtener_libro_por_id|].
  intros [l|]; avance.
Qed.

Lemma consume_pedir_estado prompt queja : consume (pedir_estado prompt queja).
Proof.
  unfold pedir_estado. apply consume_bucle.
  apply consume_bind_l; [apply consume_obtener_entrada|]. avance.
Qed.

Lemma no_crece_imprimir_lineas libros : no_crece (imprimir_lineas libros).
Proof. induction libros as [|d ds IH]; simpl; avance. Qed.

Lemma no_crece_mostrar_libros_tabla libros : no_crece (mostrar_libros_tabla libros).
Proof.
  unfold mostrar_libros_tabla. destruct libros as [|d ds]; [avance|].
  pose proof (no_crece_imprimir_lineas (d :: ds)). avance.
Qed.

Lemma no_crece_mostrar_menu : no_crece mostrar_menu.
Proof. unfold mostrar_menu. avance. Qed.

Lemma no_crece_manejar_agregar_libro : no_crece manejar_agregar_libro.
Proof.
  unfold manejar_agregar_libro.
  pose proof consume_obtener_entrada. pose proof consume_pedir_estado.
  pose proof no_crece_db_insertar. avance.
Qed.

Lemma no_crece_manejar_listado_libros : no_crece manejar_listado_libros.
Proof.
  unfold manejar_listado_libros.
  pose proof no_crece_db_obtener_todos. pose proof no_crece_mostrar_libros_tabla.
  avance.
Qed.

Lemma no_crece_manejar_buscar_libros : no_crece manejar_buscar_libros.
Proof.
  unfold manejar_buscar_libros.
  pose proof consume_obtener_entrada. pose proof no_crece_db_buscar.
  pose proof no_crece_mostrar_libros_tabla. avance.
Qed.

Lemma no_crece_manejar_actualizar_libro : no_crece manejar_actualizar_libro.
Proof.
  unfold manejar_actualizar_libro.
  pose proof consume_obtener_entrada. pose proof consume_pedir_estado.
  pose proof consume_obtener_id_valido. pose proof no_crece_db_obtener_todos.
  pose proof no_crece_db_actualizar. pose proof no_crece_mostrar_libros_tabla.
  avance.
Qed.

Lemma no_crece_manejar_eliminar_libro : no_crece manejar_eliminar_libro.
Proof.
  unfold manejar_eliminar_libro.
  pose proof consume_obtener_id_valido. pose proof no_crece_db_obtener_todos.
  pose proof no_crece_db_eliminar. pose proof no_crece_mostrar_libros_tabla.
  avance.
Qed.

Lemma no_crece_despachar opcion : no_crece (despachar opcion).
Proof.
  unfold despachar.
  pose proof no_crece_manejar_agregar_libro.
  pose proof no_crece_manejar_listado_libros.
  pose proof no_crece_manejar_buscar_libros.
  pose proof no_crece_manejar_actualizar_libro.
  pose proof no_crece_manejar_eliminar_libro.
  avance.
Qed.

Lemma consume_turno : consume turno.
Proof.
  unfold turno. apply consume_bind_r; [apply no_crece_mostrar_menu|].
  intros _. apply consume_bind_l; [apply consume_input|].
  intros linea. apply no_crece_despachar.
Qed.

(** The program always comes to an end on a finite input: it leaves through
    the exit option or it stops on an exception, the end of the input among
    them; the fuel of its loops never runs out. *)
Lemma main_termina w : main w <> Agotado.
Proof.
  assert (H : consume main).
  { unfold main. apply consume_bind_r; [apply no_crece_print|].
    intros _. apply consume_bucle. apply consume_turno. }
  specialize (H w). destruct (main w); [discriminate | discriminate | contradiction].
Qed.

(** A loop returns what its last turn returns. *)
Lemma while_true_ultimo {A} (cuerpo : IO (paso A)) n w a w' :
  while_true n cuerpo w = Hecho a w' ->
  exists w1, cuerpo w1 = Hecho (Sale a) w'.
Proof.
  revert w. induction n as [|n IH]; intros w H; [discriminate|].
  simpl in H. unfold bind in H.
  destruct (cuerpo w) as [[|x] w1| |] eqn:E; try discriminate.
  - now apply IH with w1.
  - injection H as -> ->. now exists w.
Qed.

(** ** Status values *)

(** The status loop of the console hands over one of the two enumerated
    values only. *)
Lemma pedir_estado_enumerado prompt queja w s w' :
  pedir_estado prompt queja w = Hecho s w' ->
  s = fst ESTADOS_LECTURA \/ s = snd ESTADOS_LECTURA.
Proof.
  unfold pedir_estado, bucle. intros H.
  apply while_true_ultimo in H. destruct H as [w1 H]. unfold bind in H.
  destruct (obtener_entrada prompt w1) as [x w2| |]; try discriminate.
  destruct (x =? "1")%string; [injection H as <- _; now left|].
  destruct (x =? "2")%string; [injection H as <- _; now right|].
  discriminate.
Qed.

Lemma campos_ofrecidos opcion campo :
  buscar_clave campos opcion = Some campo -> In campo CAMPOS.
Proof.
  unfold campos, CAMPOS. simpl.
  repeat match goal with
         | |- context [if ?c then _ else _] => destruct c
         end; intros H; try discriminate; injection H as <-; simpl; tauto.
Qed.

Lemma actualizar_fallo_deshace b n campo v :
  fst (snd (actualizar_libro b n campo v)) = false ->
  fst (actualizar_libro b n campo v) = b.
Proof.
  unfold actualizar_libro.
  destruct (obtener_libro_por_id b n) as [l|]; [|reflexivity].
  destruct (sql_update b l campo v); [discriminate | reflexivity].
Qed.

(** C4, as first stated, fails: a status outside the two enumerated values
    is stored and the update reports success. *)
Lemma actualizar_estado_libre :
  ~ In "Prestado" [fst ESTADOS_LECTURA; snd ESTADOS_LECTURA]
  /\ obtener_libro_por_id bd_ejemplo 1 = Some libro_cien
  /\ snd (actualizar_libro bd_ejemplo 1 "estado" (Some "Prestado")) = (true, None)
  /\ option_map estado
       (obtener_libro_por_id
          (fst (actualizar_libro bd_ejemplo 1 "estado" (Some "Prestado"))) 1)
     = Some "Prestado".
Proof.
  split; [|repeat split].
  vm_compute. intros [H | [H | H]]; [discriminate | discriminate | exact H].
Qed.

(** C4, amended.  [actualizar_libro] does not check a status against the two
    enumerated values: on an existing key every text of at most 20 characters
    is stored as the status and the update succeeds.  It is the console that
    keeps the status to the two values, and the field to the four named
    ones.  An update that fails leaves the database as it was. *)
Theorem actualizar_estado_sin_validar b n l s :
  obtener_libro_por_id b n = Some l -> (len s <= 20)%nat ->
  let r := actualizar_libro b n "estado" (Some s) in
  (snd r = (true, None)
   /\ obtener_libro_por_id (fst r) n
      = Some (mkLibro (id l) (titulo l) (autor l) (genero l) s))
  /\ (forall campo v,
        fst (snd (actualizar_libro b n campo v)) = false ->
        fst (actualizar_libro b n campo v) = b)
  /\ (forall opcion campo, buscar_clave campos opcion = Some campo -> In campo CAMPOS)
  /\ (forall prompt queja w e w',
        pedir_estado prompt queja w = Hecho e w' ->
        e = fst ESTADOS_LECTURA \/ e = snd ESTADOS_LECTURA).
Proof.
  intros H Hs. cbv zeta. split; [|split; [|split]].
  - unfold actualizar_libro. rewrite H. unfold sql_update. simpl String.eqb.
    rewrite (texto_obligatorio_cabe "estado" 20 s Hs). simpl.
    split; [reflexivity|].
    now apply (obtener_tras_modificar b n l
                 (fun x => mkLibro (id x) (titulo x) (autor x) (genero x) s)).
  - intros campo v. apply actualizar_fallo_deshace.
  - apply campos_ofrecidos.
  - apply pedir_estado_enumerado.
Qed.

Lemma actualizar_estado_sin_validar_witness :
  let r := actualizar_libro bd_ejemplo 2 "estado" (Some "Prestado") in
  (snd r = (true, None)
   /\ obtener_libro_por_id (fst r) 2 = Some (mkLibro 2 "abc" "Anon" None "Prestado"))
  /\ (forall campo v,
        fst (snd (actualizar_libro bd_ejemplo 2 campo v)) = false ->
        fst (actualizar_libro bd_ejemplo 2 campo v) = bd_ejemplo)
  /\ (forall opcion campo, buscar_clave campos opcion = Some campo -> In campo CAMPOS)
  /\ (forall prompt queja w e w',
        pedir_estado prompt queja w = Hecho e w' ->
        e = fst ESTADOS_LECTURA \/ e = snd ESTADOS_LECTURA).
Proof.
  apply (actualizar_estado_sin_validar bd_ejemplo 2 libro_abc "Prestado").
  - reflexivity.
  - simpl. lia.
Defined.

(** ** ORDER BY *)

Lemma insertar_libro_valida b t a g e :
  tupla_valida t a g e ->
  insertar_libro b (Some t) (Some a) g (Some e)
  = ({| colacion := colacion b;
        filas := filas b ++ [mkLibro (autoinc b) t a g e];
        autoinc := autoinc b + 1 |}, Devuelve true).
Proof.
  intros (Ht & Ha & Hg & He). unfold insertar_libro, sql_insert.
  rewrite (texto_obligatorio_cabe "titulo" 255 t Ht).
  rewrite (texto_obligatorio_cabe "autor" 255 a Ha).
  rewrite (texto_opcional_cabe "genero" 100 g Hg).
  rewrite (texto_obligatorio_cabe "estado" 20 e He).
  reflexivity.
Qed.

Section Orden.

Context {A : Type}.
Variable leb : A -> A -> bool.

Notation "x <<= y" := (leb x y = true) (at level 70).

Lemma insertar_ordenado_perm x l : Permutation (x :: l) (insertar_ordenado leb x l).
Proof.
  induction l as [|y l IH]; simpl; [reflexivity|].
  destruct (leb x y); [reflexivity|].
  rewrite perm_swap. now apply perm_skip.
Qed.

Lemma ordenar_perm l : Permutation l (ordenar leb l).
Proof.
  induction l as [|x l IH]; simpl; [reflexivity|].
  rewrite <- insertar_ordenado_perm. now apply perm_skip.
Qed.

Hypothesis leb_total : forall a b, a <<= b \/ b <<= a.
Hypothesis leb_trans : forall a b c, a <<= b -> b <<= c -> a <<= c.

Lemma insertar_ordenado_sorted x l :
  StronglySorted (fun a b => a <<= b) l ->
  StronglySorted (fun a b => a <<= b) (insertar_ordenado leb x l).
Proof.
  induction 1 as [|y l Hs IH Hy]; simpl.
  - repeat constructor.
  - destruct (leb x y) eqn:E.
    + constructor; [now constructor|].
      constructor; [assumption|].
      eapply Forall_impl; [|exact Hy]. intros z Hz. now apply leb_trans with y.
    + constructor; [assumption|].
      assert (Hyx : y <<= x) by (destruct (leb_total x y); congruence).
      apply Forall_forall. intros z Hz.
      apply (Permutation_in _ (Permutation_sym (insertar_ordenado_perm x l))) in Hz.
      destruct Hz as [<- | Hz]; [assumption|].
      rewrite Forall_forall in Hy. now apply Hy.
Qed.

Lemma ordenar_sorted l : StronglySorted (fun a b => a <<= b) (ordenar leb l).
Proof.
  induction l as [|x l IH]; simpl; [constructor|].
  now apply insertar_ordenado_sorted.
Qed.

End Orden.




(** The sort is stable: where the keys do not put one element before
    another, the two keep the order they came in. *)
Section Estable.

Context {A : Type}.
Variable leb : A -> A -> bool.
Variable antes : A -> A -> Prop.



End Estable.






(** The order of the code points is a collation. *)
Lemma compare_no_gt_trans s1 : forall s2 s3,
  String.compare s1 s2 <> Gt -> String.compare s2 s3 <> Gt -> String.compare s1 s3 <> Gt.
Proof.
  induction s1 as [|c1 s1 IH]; intros [|c2 s2] [|c3 s3]; simpl; try congruence.
  unfold Ascii.compare.
  destruct (N.compare_spec (N_of_ascii c1) (N_of_ascii c2)) as [E12|L12|G12];
    destruct (N.compare_spec (N_of_ascii c2) (N_of_ascii c3)) as [E23|L23|G23];
    try congruence; intros H12 H23.
  - rewrite E12, E23, N.compare_refl. now apply IH with s2.
  - rewrite E12. apply N.compare_lt_iff in L23. rewrite L23. discriminate.
  - rewrite <- E23. apply N.compare_lt_iff in L12. rewrite L12. discriminate.
  - assert (L : (N_of_ascii c1 < N_of_ascii c3)%N) by lia.
    apply N.compare_lt_iff in L. rewrite L. discriminate.
Qed.

Lemma colacion_binaria_ok : colacion_ok colacion_binaria.
Proof.
  split.
  - apply String.leb_total.
  - unfold colacion_binaria, String.leb. intros a b c Hab Hbc.
    pose proof (compare_no_gt_trans a b c) as H.
    destruct (String.compare a b); destruct (String.compare b c);
      destruct (String.compare a c); try reflexivity; try discriminate;
      exfalso; apply H; congruence.
Qed.




(** ** Search *)

Lemma minuscula_no_comodin c : es_comodin c = false -> es_comodin (minuscula c) = false.
Proof.
  destruct c as [[] [] [] [] [] [] [] []]; intros H; vm_compute in *; congruence.
Qed.

Lemma sin_comodines_lower t : sin_comodines t = true -> sin_comodines (lower t) = true.
Proof.
  induction t as [|c t IH]; simpl; [reflexivity|].
  rewrite !andb_true_iff, !negb_true_iff. intros [Hc Ht].
  split; [now apply minuscula_no_comodin | now apply IH].
Qed.

Lemma lower_append a b : lower (a ++ b) = lower a ++ lower b.
Proof. induction a as [|c a IH]; simpl; [reflexivity | now rewrite IH]. Qed.

Lemma fichas_literales t r :
  sin_comodines t = true -> fichas (t ++ r) = (literales t ++ fichas r)%list.
Proof.
  induction t as [|c t IH]; [reflexivity|].
  simpl sin_comodines. rewrite andb_true_iff, negb_true_iff.
  unfold es_comodin. rewrite !orb_false_iff. intros [[[H1 H2] H3] Ht].
  simpl. rewrite H1, H2, H3. now rewrite IH.
Qed.

Lemma coincide_cualquiera p s :
  coincide (Cualquiera :: p) s
  = coincide p s
    || match s with
       | String _ r => coincide (Cualquiera :: p) r
       | EmptyString => false
       end.
Proof. destruct s; reflexivity. Qed.

Lemma coincide_solo_cualquiera s : coincide [Cualquiera] s = true.
Proof.
  induction s as [|c s IH]; [reflexivity|].
  rewrite coincide_cualquiera. rewrite IH. apply orb_true_r.
Qed.

Lemma coincide_literales t s :
  coincide (literales t ++ [Cualquiera])%list s = empieza_por t s.
Proof.
  revert s. induction t as [|c t IH]; intros s.
  - simpl literales. simpl app. rewrite coincide_solo_cualquiera. now destruct s.
  - destruct s as [|d s]; [reflexivity|]. simpl. now rewrite IH.
Qed.

Lemma coincide_subcadena t s :
  coincide (Cualquiera :: literales t ++ [Cualquiera])%list s = subcadena t s.
Proof.
  induction s as [|d s IH]; rewrite coincide_cualquiera, coincide_literales.
  - reflexivity.
  - simpl subcadena. now rewrite IH.
Qed.

(** A pattern [%t%] whose [t] has no wildcard and no escape matches the texts
    that contain [t]. *)
Lemma like_sin_comodines t s :
  sin_comodines t = true -> like s ("%" ++ t ++ "%") = subcadena t s.
Proof.
  intros Ht. unfold like.
  change (fichas ("%" ++ t ++ "%")) with (Cualquiera :: fichas (t ++ "%")).
  rewrite fichas_literales by exact Ht.
  apply coincide_subcadena.
Qed.

Lemma filtro_sin_comodines termino l :
  sin_comodines termino = true ->
  filtro_busqueda ("%" ++ termino ++ "%") l = contiene_termino termino l.
Proof.
  intros Ht. apply sin_comodines_lower in Ht.
  unfold filtro_busqueda, contiene_termino, ilike.
  assert (Hp : lower ("%" ++ termino ++ "%") = "%" ++ lower termino ++ "%").
  { rewrite !lower_append. reflexivity. }
  rewrite Hp, !like_sin_comodines by exact Ht.
  destruct (genero l) as [g|].
  - rewrite like_sin_comodines by exact Ht.
    destruct (subcadena (lower termino) (lower (titulo l))),
             (subcadena (lower termino) (lower (autor l))),
             (subcadena (lower termino) (lower g)); reflexivity.
  - destruct (subcadena (lower termino) (lower (titulo l))),
             (subcadena (lower termino) (lower (autor l))); reflexivity.
Qed.

Lemma filter_perm {A} (f : A -> bool) (l1 l2 : list A) :
  Permutation l1 l2 -> Permutation (filter f l1) (filter f l2).
Proof.
  induction 1 as [|x l1 l2 _ IH|x y l|l1 l2 l3 _ IH1 _ IH2]; simpl.
  - reflexivity.
  - destruct (f x); [now apply perm_skip | assumption].
  - destruct (f x), (f y); try reflexivity. apply perm_swap.
  - now transitivity (filter f l2).
Qed.

(** For a term that has no character with a meaning in LIKE, the search
    returns exactly the rows that contain the term in the title, the author
    or the genre, letter case apart, by ascending title. *)
Lemma buscar_libros_exacto b termino :
  colacion_ok (colacion b) -> sin_comodines termino = true ->
  exists fs,
    buscar_libros b termino = map to_dict fs
    /\ Permutation (filter (contiene_termino termino) (filas b)) fs
    /\ StronglySorted (fun x y => colacion b (titulo x) (titulo y) = true) fs.
Proof.
  intros [Htot Htrans] Ht.
  exists (order_by_titulo b (filter (contiene_termino termino) (recorrido b))).
  split; [|split].
  - unfold buscar_libros. cbv zeta. f_equal. f_equal.
    apply filter_ext. intros l. now apply filtro_sin_comodines.
  - unfold order_by_titulo. rewrite <- ordenar_perm.
    apply filter_perm. unfold recorrido. apply ordenar_perm.
  - unfold order_by_titulo. apply (ordenar_sorted (titulo_leb b)).
    + intros x y. apply Htot.
    + intros x y z. apply Htrans.
Qed.

(** C2.  The claim fails on the term [_bc]: the underscore reaches LIKE as a
    wildcard, so the book titled [abc] is returned although the term occurs
    in none of its fields. *)
Theorem buscar_comodin :
  buscar_libros bd_ejemplo "_bc" = [to_dict libro_abc]
  /\ contiene_termino "_bc" libro_abc = false.
Proof. split; vm_compute; reflexivity. Qed.

(** ** The table *)

Lemma len_append a b : len (a ++ b) = (len a + len b)%nat.
Proof. unfold len. induction a as [|c a IH]; simpl; [reflexivity | now rewrite IH]. Qed.

Lemma len_hasta s k : (k <= len s)%nat -> len (hasta s k) = k.
Proof.
  unfold len, hasta. revert k. induction s as [|c s IH]; intros [|k] Hk; simpl in *;
    try reflexivity; try lia.
  rewrite IH; [reflexivity | lia].
Qed.

(** What [recortar] returns on a text is the text, or its cut to the width
    of the column with the ellipsis as its last three characters. *)
Lemma recortar_recorte ancho s :
  (3 <= ancho)%nat ->
  exists t, recortar (VStr s) ancho = Devuelve t /\ recorte ancho s t.
Proof.
  intros Hancho. unfold recortar, recorte.
  destruct (Nat.ltb_spec ancho (len s)) as [Hlt | Hge].
  - eexists. split; [reflexivity|]. right. split; [assumption|]. split; [reflexivity|].
    rewrite len_append, len_hasta by lia. simpl. lia.
  - eexists. split; [reflexivity|]. left. now split.
Qed.

Lemma linea_libro_con_genero l g :
  genero l = Some g ->
  exists t a g',
    linea_libro (to_dict l) = Devuelve (linea_de l t a g')
    /\ recorte COL_TITULO (titulo l) t /\ recorte COL_AUTOR (autor l) a
    /\ recorte COL_GENERO g g'.
Proof.
  intros Hg.
  destruct (recortar_recorte COL_TITULO (titulo l)) as (t & Et & Ht); [unfold COL_TITULO; lia|].
  destruct (recortar_recorte COL_AUTOR (autor l)) as (a & Ea & Ha); [unfold COL_AUTOR; lia|].
  destruct (recortar_recorte COL_GENERO g) as (g' & Eg & Hg'); [unfold COL_GENERO; lia|].
  exists t, a, g'. split; [|now repeat split].
  unfold linea_libro, to_dict. rewrite Hg.
  change (dict_get _ "titulo") with (Devuelve (VStr (titulo l))).
  change (dict_get _ "autor") with (Devuelve (VStr (autor l))).
  change (dict_get _ "genero") with (Devuelve (VStr g)).
  change (dict_get _ "id") with (Devuelve (VInt (id l))).
  change (dict_get _ "estado") with (Devuelve (VStr (estado l))).
  unfold ligar at 1. unfold ligar at 1. rewrite Et.
  unfold ligar at 1. unfold ligar at 1. rewrite Ea.
  unfold ligar at 1. unfold ligar at 1. rewrite Eg.
  reflexivity.
Qed.

Lemma linea_libro_sin_genero l :
  genero l = None ->
  linea_libro (to_dict l) = Lanza error_len_none.
Proof.
  intros Hg.
  destruct (recortar_recorte COL_TITULO (titulo l)) as (t & Et & _); [unfold COL_TITULO; lia|].
  destruct (recortar_recorte COL_AUTOR (autor l)) as (a & Ea & _); [unfold COL_AUTOR; lia|].
  unfold linea_libro, to_dict. rewrite Hg.
  change (dict_get _ "titulo") with (Devuelve (VStr (titulo l))).
  change (dict_get _ "autor") with (Devuelve (VStr (autor l))).
  change (dict_get _ "genero") with (@Devuelve valor VNone).
  unfold ligar at 1. unfold ligar at 1. rewrite Et.
  unfold ligar at 1. unfold ligar at 1. rewrite Ea.
  reflexivity.
Qed.

Lemma escribe_todo_nil w : escribe_todo [] w = w.
Proof. destruct w. unfold escribe_todo. simpl. now rewrite app_nil_r. Qed.

Lemma escribe_todo_cons ev evs w :
  escribe_todo evs (escribe ev w) = escribe_todo (ev :: evs) w.
Proof. unfold escribe_todo, escribe. simpl. now rewrite <- app_assoc. Qed.

Lemma escribe_todo_app evs1 evs2 w :
  escribe_todo evs2 (escribe_todo evs1 w) = escribe_todo (evs1 ++ evs2) w.
Proof. unfold escribe_todo. simpl. now rewrite <- app_assoc. Qed.

(** The lines of the books are printed one by one until a book without a
    genre stops the loop. *)
Lemma imprimir_lineas_casos ls w :
  (Forall (fun l => tiene_genero l = true) ls
   /\ exists lineas,
        Forall2 linea_recortada ls lineas
        /\ imprimir_lineas (map to_dict ls) w
           = Hecho tt (escribe_todo (map Imprime lineas) w))
  \/ (Exists (fun l => genero l = None) ls
      /\ exists lineas,
           (List.length lineas < List.length ls)%nat
           /\ imprimir_lineas (map to_dict ls) w
              = Falla error_len_none (escribe_todo (map Imprime lineas) w)).
Proof.
  revert w. induction ls as [|l ls IH]; intros w.
  - left. split; [constructor|]. exists []. split; [constructor|].
    simpl. now rewrite escribe_todo_nil.
  - destruct (genero l) as [g|] eqn:Eg.
    + destruct (linea_libro_con_genero l g Eg) as (t & a & g' & El & Ht & Ha & Hg').
      assert (Hstep : imprimir_lineas (map to_dict (l :: ls)) w
                      = imprimir_lineas (map to_dict ls)
                          (escribe (Imprime (linea_de l t a g')) w)).
      { simpl. unfold bind, elevar. rewrite El. reflexivity. }
      rewrite Hstep.
      destruct (IH (escribe (Imprime (linea_de l t a g')) w))
        as [[Hall (lineas & Hf & E)] | [Hex (lineas & Hlen & E)]].
      * left. split.
        { constructor; [unfold tiene_genero; now rewrite Eg | assumption]. }
        exists (linea_de l t a g' :: lineas). split.
        { constructor; [|assumption]. exists t, a, g, g'. now repeat split. }
        rewrite E. simpl map. now rewrite escribe_todo_cons.
      * right. split; [now apply Exists_cons_tl|].
        exists (linea_de l t a g' :: lineas). split; [simpl; lia|].
        rewrite E. simpl map. now rewrite escribe_todo_cons.
    + right. split; [now apply Exists_cons_hd|].
      exists []. split; [simpl; lia|].
      simpl. unfold bind, elevar. rewrite (linea_libro_sin_genero l Eg).
      now rewrite escribe_todo_nil.
Qed.

Lemma mostrar_libros_tabla_no_vacia l ls w :
  mostrar_libros_tabla (map to_dict (l :: ls)) w
  = match imprimir_lineas (map to_dict (l :: ls)) (escribe_todo cabecera w) with
    | Hecho _ w' => Hecho tt (escribe (Imprime (separador "-")) w')
    | Falla e w' => Falla e w'
    | Agotado => Agotado
    end.
Proof.
  change (map to_dict (l :: ls)) with (to_dict l :: map to_dict ls).
  unfold mostrar_libros_tabla. cbv beta iota delta [bind print].
  assert (E : escribe (Imprime (separador "="))
                (escribe (Imprime encabezado) (escribe (Imprime (separador "-")) w))
              = escribe_todo cabecera w).
  { unfold escribe, escribe_todo, cabecera. simpl. now rewrite <- !app_assoc. }
  rewrite E. reflexivity.
Qed.

(** The table of a list of rows that all have a genre. *)
Lemma tabla_impresa l ls w :
  Forall (fun x => tiene_genero x = true) (l :: ls) ->
  exists lineas,
    Forall2 linea_recortada (l :: ls) lineas
    /\ mostrar_libros_tabla (map to_dict (l :: ls)) w
       = Hecho tt
           (escribe_todo
              (cabecera ++ map Imprime lineas ++ [Imprime (separador "-")]) w).
Proof.
  intros Hall. rewrite mostrar_libros_tabla_no_vacia.
  destruct (imprimir_lineas_casos (l :: ls) (escribe_todo cabecera w))
    as [[_ (lineas & Hf & E)] | [Hex _]].
  - exists lineas. split; [assumption|]. rewrite E.
    rewrite escribe_todo_app.
    change (escribe (Imprime (separador "-")) ?x)
      with (escribe_todo [Imprime (separador "-")] x).
    rewrite escribe_todo_app, <- app_assoc. reflexivity.
  - exfalso. rewrite Forall_forall in Hall. apply Exists_exists in Hex.
    destruct Hex as (x & Hx & Hnone). specialize (Hall x Hx).
    unfold tiene_genero in Hall. rewrite Hnone in Hall. discriminate.
Qed.

(** C8, amended.  For the empty list the table gives way to the message that
    there are no books.  For a list of rows that all have a genre, the table
    is its head, one line per row and the closing rule; in a line the title,
    the author and the genre longer than their columns (40, 25, 15) are cut
    to the width of the column, the ellipsis being its last three characters;
    the key and the status are padded and appear in full. *)
Theorem tabla_recortada ls w :
  Forall (fun l => tiene_genero l = true) ls ->
  match ls with
  | [] => mostrar_libros_tabla (map to_dict ls) w
          = Hecho tt (escribe (Imprime sin_libros) w)
  | _ :: _ =>
      exists lineas,
        Forall2 linea_recortada ls lineas
        /\ mostrar_libros_tabla (map to_dict ls) w
           = Hecho tt
               (escribe_todo
                  (cabecera ++ map Imprime lineas ++ [Imprime (separador "-")]) w)
  end.
Proof.
  intros Hall. destruct ls as [|l ls]; [reflexivity|].
  now apply tabla_impresa.
Qed.

Lemma tabla_recortada_witness :
  exists lineas,
    Forall2 linea_recortada [libro_cien; libro_id_grande] lineas
    /\ mostrar_libros_tabla (map to_dict [libro_cien; libro_id_grande]) (mundo_ejemplo [])
       = Hecho tt
           (escribe_todo
              (cabecera ++ map Imprime lineas ++ [Imprime (separador "-")])
              (mundo_ejemplo [])).
Proof.
  apply (tabla_recortada [libro_cien; libro_id_grande] (mundo_ejemplo [])).
  repeat constructor.
Defined.

(** C8, as first stated, fails on a key of six digits: the column of the key
    is five wide, and the line shows the key in full, with no ellipsis. *)
Lemma tabla_id_largo :
  (COL_ID < len (de_entero (id libro_id_grande)))%nat
  /\ exists resto,
       linea_libro (to_dict libro_id_grande)
       = Devuelve ("| 123456 | Rayuela" ++ resto).
Proof.
  split; [vm_compute; lia|].
  eexists. vm_compute. reflexivity.
Qed.

(** C10.  When a row of the list has no genre, the table stops with the
    [TypeError] of [len(None)]: its head and fewer lines than there are rows
    have been printed, and the closing rule never is.  The table is printed
    whole exactly when every row has a genre. *)
Theorem tabla_genero_nulo ls w :
  Exists (fun l => genero l = None) ls ->
  (exists lineas,
     (List.length lineas < List.length ls)%nat
     /\ mostrar_libros_tabla (map to_dict ls) w
        = Falla error_len_none (escribe_todo (cabecera ++ map Imprime lineas) w))
  /\ forall ls' w',
       (exists w'', mostrar_libros_tabla (map to_dict ls') w' = Hecho tt w'')
       <-> Forall (fun l => tiene_genero l = true) ls'.
Proof.
  assert (Hnot : forall xs, Exists (fun l => genero l = None) xs ->
                            ~ Forall (fun l => tiene_genero l = true) xs).
  { intros xs Hex Hall. rewrite Forall_forall in Hall. apply Exists_exists in Hex.
    destruct Hex as (x & Hx & Hnone). specialize (Hall x Hx).
    unfold tiene_genero in Hall. rewrite Hnone in Hall. discriminate. }
  intros Hex. split.
  - destruct ls as [|l ls]; [inversion Hex|].
    rewrite mostrar_libros_tabla_no_vacia.
    destruct (imprimir_lineas_casos (l :: ls) (escribe_todo cabecera w))
      as [[Hall _] | [_ (lineas & Hlen & E)]].
    + exfalso. now apply (Hnot (l :: ls)).
    + exists lineas. split; [assumption|]. rewrite E.
      now rewrite escribe_todo_app.
  - intros ls' w'. split.
    + intros [w'' E]. destruct ls' as [|l ls']; [constructor|].
      rewrite mostrar_libros_tabla_no_vacia in E.
      destruct (imprimir_lineas_casos (l :: ls') (escribe_todo cabecera w'))
        as [[Hall _] | [_ (lineas & _ & E')]]; [assumption|].
      rewrite E' in E. discriminate.
    + intros Hall. destruct ls' as [|l ls'].
      * eexists. reflexivity.
      * destruct (tabla_impresa l ls' w' Hall) as (lineas & _ & E).
        eexists. exact E.
Qed.

Lemma tabla_genero_nulo_witness :
  (exists lineas,
     (List.length lineas < List.length [libro_cien; libro_abc])%nat
     /\ mostrar_libros_tabla (map to_dict [libro_cien; libro_abc]) (mundo_ejemplo [])
        = Falla error_len_none
            (escribe_todo (cabecera ++ map Imprime lineas) (mundo_ejemplo [])))
  /\ forall ls' w',
       (exists w'', mostrar_libros_tabla (map to_dict ls') w' = Hecho tt w'')
       <-> Forall (fun l => tiene_genero l = true) ls'.
Proof.
  apply (tabla_genero_nulo [libro_cien; libro_abc] (mundo_ejemplo [])).
  apply Exists_cons_tl, Exists_cons_hd. reflexivity.
Defined.

(** ** The main loop *)

Lemma mostrar_menu_escribe w : mostrar_menu w = Hecho tt (escribe_todo menu w).
Proof.
  unfold mostrar_menu. cbv beta iota delta [bind print].
  f_equal. unfold escribe, escribe_todo, menu. simpl.
  now rewrite <- !app_assoc.
Qed.

Lemma turno_despacha w linea resto :
  entradas w = linea :: resto ->
  turno w = despachar (strip linea) (tras_menu w resto).
Proof.
  intros H. unfold turno. unfold bind at 1. rewrite mostrar_menu_escribe.
  unfold bind, input. simpl. rewrite H.
  unfold tras_menu. now rewrite <- app_assoc.
Qed.

Lemma turno_sin_entrada w :
  entradas w = [] -> exists w', turno w = Falla EOFError w'.
Proof.
  intros H. unfold turno. unfold bind at 1. rewrite mostrar_menu_escribe.
  unfold bind, input. simpl. rewrite H. eexists. reflexivity.
Qed.

Lemma seguir_no_sale (h : IO unit) w w' :
  (h ;; ret (@Sigue unit)) w <> Hecho (Sale tt) w'.
Proof. unfold bind, ret. destruct (h w); discriminate. Qed.

Lemma despachar_sale opcion w w' :
  despachar opcion w = Hecho (Sale tt) w' -> opcion = "6".
Proof.
  unfold despachar.
  destruct (opcion =? "1")%string; [intros H; now apply seguir_no_sale in H|].
  destruct (opcion =? "2")%string; [intros H; now apply seguir_no_sale in H|].
  destruct (opcion =? "3")%string; [intros H; now apply seguir_no_sale in H|].
  destruct (opcion =? "4")%string; [intros H; now apply seguir_no_sale in H|].
  destruct (opcion =? "5")%string; [intros H; now apply seguir_no_sale in H|].
  destruct (String.eqb_spec opcion "6"); [trivial|].
  intros H. now apply seguir_no_sale in H.
Qed.

Lemma despachar_no_valida opcion w :
  ~ In opcion OPCIONES ->
  despachar opcion w = Hecho Sigue (escribe (Imprime opcion_no_valida) w).
Proof.
  intros H. unfold despachar.
  repeat match goal with
         | |- context [String.eqb opcion ?k] =>
             destruct (String.eqb_spec opcion k);
             [exfalso; apply H; subst; simpl; tauto|]
         end.
  reflexivity.
Qed.

(** C9, as first stated, fails on the line [" 6 "]: it is not the text ['6'],
    and the program says farewell and ends, because the selection is the line
    without the blanks around it. *)
Lemma salir_con_espacios :
  " 6 " <> "6"
  /\ (exists w', turno (mundo_ejemplo [" 6 "]) = Hecho (Sale tt) w')
  /\ (exists w', main (mundo_ejemplo [" 6 "]) = Hecho tt w').
Proof.
  split; [discriminate|].
  split; eexists; vm_compute; reflexivity.
Qed.

(** C9, amended.  The selection is the line typed at the menu without the
    blanks around it.  The selection ['6'] prints the farewell and leaves the
    loop; a selection outside ['1'] .. ['6'] prints the error message and the
    loop goes on to its next turn, the menu and the prompt again, with the
    database untouched; no selection other than ['6'] leaves the loop; and
    when the program ends normally its last turn was a selection of ['6']. *)
Theorem menu_principal w linea resto :
  entradas w = linea :: resto ->
  (strip linea = "6" ->
     turno w = Hecho (Sale tt) (escribe (Imprime despedida) (tras_menu w resto)))
  /\ (~ In (strip linea) OPCIONES ->
        turno w = Hecho Sigue (escribe (Imprime opcion_no_valida) (tras_menu w resto))
        /\ forall n,
             while_true (S n) turno w
             = while_true n turno
                 (escribe (Imprime opcion_no_valida) (tras_menu w resto)))
  /\ (strip linea <> "6" -> forall w', turno w <> Hecho (Sale tt) w')
  /\ (forall w0 w', main w0 = Hecho tt w' ->
        exists wu l r,
          entradas wu = l :: r /\ strip l = "6" /\ turno wu = Hecho (Sale tt) w').
Proof.
  intros H. rewrite (turno_despacha w linea resto H).
  split; [|split; [|split]].
  - intros ->. reflexivity.
  - intros Hno. split; [now apply despachar_no_valida|].
    intros n. simpl. unfold bind at 1.
    rewrite (turno_despacha w linea resto H), despachar_no_valida by exact Hno.
    reflexivity.
  - intros Hne w' E. apply Hne. eapply despachar_sale. exact E.
  - clear. intros w0 w' E. unfold main in E.
    cbv beta iota delta [bind print bucle] in E.
    apply while_true_ultimo in E. destruct E as [wu E].
    destruct (entradas wu) as [|l r] eqn:El.
    + destruct (turno_sin_entrada wu El) as [wx Ex]. congruence.
    + exists wu, l, r. split; [exact El|]. split; [|exact E].
      rewrite (turno_despacha wu l r El) in E. eapply despachar_sale. exact E.
Qed.

Lemma menu_principal_witness :
  (strip " x " = "6" ->
     turno (mundo_ejemplo [" x "; "6"])
     = Hecho (Sale tt)
         (escribe (Imprime despedida) (tras_menu (mundo_ejemplo [" x "; "6"]) ["6"])))
  /\ (~ In (strip " x ") OPCIONES ->
        turno (mundo_ejemplo [" x "; "6"])
        = Hecho Sigue
            (escribe (Imprime opcion_no_valida)
               (tras_menu (mundo_ejemplo [" x "; "6"]) ["6"]))
        /\ forall n,
             while_true (S n) turno (mundo_ejemplo [" x "; "6"])
             = while_true n turno
                 (escribe (Imprime opcion_no_valida)
                    (tras_menu (mundo_ejemplo [" x "; "6"]) ["6"])))
  /\ (strip " x " <> "6" ->
        forall w', turno (mundo_ejemplo [" x "; "6"]) <> Hecho (Sale tt) w')
  /\ (forall w0 w', main w0 = Hecho tt w' ->
        exists wu l r,
          entradas wu = l :: r /\ strip l = "6" /\ turno wu = Hecho (Sale tt) w').
Proof.
  apply (menu_principal (mundo_ejemplo [" x "; "6"]) " x " ["6"]). reflexivity.
Defined.

(** A session: a selection that is not on the menu, then the exit. *)
Example sesion_salir :
  exists w', main (mundo_ejemplo [" x "; "6"]) = Hecho tt w'
             /\ bd w' = bd_ejemplo /\ entradas w' = [].
Proof. eexists. split; [vm_compute; reflexivity | split; reflexivity]. Qed.

(** ** The example of the specification *)

Example ejemplo_crud :
  let b0 := bd_vacia colacion_binaria in
  let b1 := fst (insertar_libro b0 (Some (latin1 "Cien años de soledad"))
                   (Some (latin1 "García Márquez")) (Some "Novela")
                   (Some (snd ESTADOS_LECTURA))) in
  let b2 := fst (actualizar_libro b1 1 "estado" (Some (fst ESTADOS_LECTURA))) in
  let b3 := fst (eliminar_libro b2 1) in
  obtener_libro_por_id b1 1 = Some libro_cien
  /\ buscar_libros b1 (latin1 "garcía") = [to_dict libro_cien]
  /\ option_map estado (obtener_libro_por_id b2 1) = Some (latin1 "Leído")
  /\ obtener_libro_por_id b3 1 = None.
Proof. repeat split. Qed.

(** * Further properties *)

(** ** The manager *)

Lemma sql_insert_fila b t a g e b' :
  sql_insert b t a g e = Devuelve b' ->
  exists t' a' e',
    t = Some t' /\ a = Some a' /\ e = Some e'
    /\ fila_en_columnas (mkLibro (autoinc b) t' a' g e')
    /\ b' = {| colacion := colacion b;
               filas := filas b ++ [mkLibro (autoinc b) t' a' g e'];
               autoinc := autoinc b + 1 |}.
Proof.
  unfold sql_insert, ligar, texto_obligatorio, texto_opcional. intros H.
  destruct t as [t'|]; [|discriminate].
  destruct (Nat.ltb_spec 255 (len t')); [discriminate|].
  destruct a as [a'|]; [|discriminate].
  destruct (Nat.ltb_spec 255 (len a')); [discriminate|].
  destruct g as [g'|].
  - destruct (Nat.ltb_spec 100 (len g')); [discriminate|].
    destruct e as [e'|]; [|discriminate].
    destruct (Nat.ltb_spec 20 (len e')); [discriminate|].
    injection H as <-. exists t', a', e'. repeat split; simpl; assumption.
  - destruct e as [e'|]; [|discriminate].
    destruct (Nat.ltb_spec 20 (len e')); [discriminate|].
    injection H as <-. exists t', a', e'. repeat split; simpl; trivial.
Qed.

(** X1.  An insertion is all or nothing: it returns [True] and the table has
    one row more, with the counter as its key and the given values in its
    fields, or the table is left as it was.  It returns [False] only when a
    title, an author or a status is missing. *)
Theorem insertar_todo_o_nada b t a g e :
  let r := insertar_libro b t a g e in
  (snd r = Devuelve true
   /\ exists t' a' e',
        t = Some t' /\ a = Some a' /\ e = Some e'
        /\ filas (fst r) = (filas b ++ [mkLibro (autoinc b) t' a' g e'])%list
        /\ autoinc (fst r) = autoinc b + 1)
  \/ (fst r = b /\ snd r <> Devuelve true
      /\ (snd r = Devuelve false -> t = None \/ a = None \/ e = None)).
Proof.
  cbv zeta. unfold insertar_libro.
  destruct (sql_insert b t a g e) as [b'|ex] eqn:E.
  - left. split; [reflexivity|].
    destruct (sql_insert_fila _ _ _ _ _ _ E) as (t' & a' & e' & -> & -> & -> & _ & ->).
    exists t', a', e'. repeat split.
  - right.
    assert (Hnull : forall d, ex = IntegrityError d -> t = None \/ a = None \/ e = None).
    { intros d ->. revert E. unfold sql_insert, ligar, texto_obligatorio, texto_opcional.
      destruct t as [t'|]; [|auto].
      destruct (255 <? len t')%nat; [discriminate|].
      destruct a as [a'|]; [|auto].
      destruct (255 <? len a')%nat; [discriminate|].
      destruct g as [g'|].
      - destruct (100 <? len g')%nat; [discriminate|].
        destruct e as [e'|]; [|auto]. destruct (20 <? len e')%nat; discriminate.
      - destruct e as [e'|]; [|auto]. destruct (20 <? len e')%nat; discriminate. }
    destruct ex; simpl; (split; [reflexivity|]); (split; [discriminate|]);
      intros H; try discriminate. eapply Hnull. reflexivity.
Qed.

Lemma Forall_modificar (P : Libro -> Prop) n f fs :
  (forall l, P l -> P (f l)) -> Forall P fs -> Forall P (modificar n f fs).
Proof.
  intros Hf Hall. unfold modificar. apply Forall_map.
  eapply Forall_impl; [|exact Hall]. simpl.
  intros l Hl. destruct (tiene_id n l); auto.
Qed.

Lemma texto_obligatorio_devuelve columna limite v s :
  texto_obligatorio columna limite v = Devuelve s ->
  v = Some s /\ (len s <= limite)%nat.
Proof.
  unfold texto_obligatorio. destruct v as [x|]; [|discriminate].
  destruct (Nat.ltb_spec limite (len x)) as [Hlt | Hle]; [discriminate|].
  intros E. injection E as <-. now split.
Qed.

Lemma texto_opcional_devuelve columna limite v g :
  texto_opcional columna limite v = Devuelve g ->
  v = g /\ match g with Some s => (len s <= limite)%nat | None => True end.
Proof.
  unfold texto_opcional. destruct v as [x|].
  - destruct (Nat.ltb_spec limite (len x)) as [Hlt | Hle]; [discriminate|].
    intros E. injection E as <-. now split.
  - intros E. injection E as <-. now split.
Qed.

Lemma sql_update_columnas b l campo v b' :
  Forall fila_en_columnas (filas b) ->
  sql_update b l campo v = Devuelve b' -> Forall fila_en_columnas (filas b').
Proof.
  intros Hall H. unfold sql_update, ligar in H.
  destruct (campo =? "titulo")%string.
  { destruct (texto_obligatorio "titulo" 255 v) as [t|] eqn:E; [|discriminate].
    apply texto_obligatorio_devuelve in E. destruct E as [_ Ht].
    injection H as <-. simpl. apply Forall_modificar; [|assumption].
    intros x (H1 & H2 & H3 & H4). repeat split; simpl; assumption. }
  destruct (campo =? "autor")%string.
  { destruct (texto_obligatorio "autor" 255 v) as [t|] eqn:E; [|discriminate].
    apply texto_obligatorio_devuelve in E. destruct E as [_ Ht].
    injection H as <-. simpl. apply Forall_modificar; [|assumption].
    intros x (H1 & H2 & H3 & H4). repeat split; simpl; assumption. }
  destruct (campo =? "genero")%string.
  { destruct (texto_opcional "genero" 100 v) as [g|] eqn:E; [|discriminate].
    apply texto_opcional_devuelve in E. destruct E as [_ Hg].
    injection H as <-. simpl. apply Forall_modificar; [|assumption].
    intros x (H1 & H2 & H3 & H4). repeat split; simpl; assumption. }
  destruct (campo =? "estado")%string.
  { destruct (texto_obligatorio "estado" 20 v) as [t|] eqn:E; [|discriminate].
    apply texto_obligatorio_devuelve in E. destruct E as [_ Ht].
    injection H as <-. simpl. apply Forall_modificar; [|assumption].
    intros x (H1 & H2 & H3 & H4). repeat split; simpl; assumption. }
  destruct (campo =? "id")%string;
    [|destruct (setattr_no_mapeado campo); [injection H as <-; exact Hall | discriminate]].
  destruct v as [s|]; [|discriminate].
  destruct (entero_sql s) as [n|]; [|discriminate].
  destruct (n =? id l); [injection H as <-; exact Hall|].
  destruct (existsb (tiene_id n) (filas b)); [discriminate|].
  injection H as <-. simpl. apply Forall_modificar; [|assumption].
  intros x Hx. exact Hx.
Qed.

Lemma alcanzable_columnas col b :
  alcanzable col b -> Forall fila_en_columnas (filas b) /\ colacion b = col.
Proof.
  induction 1 as [|b t a g e _ [IH Hc]|b n campo v _ [IH Hc]|b n _ [IH Hc]].
  - split; [constructor | reflexivity].
  - unfold insertar_libro.
    destruct (sql_insert b t a g e) as [b'|ex] eqn:E.
    + destruct (sql_insert_fila _ _ _ _ _ _ E) as (t' & a' & e' & _ & _ & _ & Hf & ->).
      simpl. split; [|assumption]. apply Forall_app. split; [assumption|].
      constructor; [exact Hf | constructor].
    + destruct ex; simpl; now split.
  - unfold actualizar_libro.
    destruct (obtener_libro_por_id b n) as [l|]; [|now split].
    destruct (sql_update b l campo v) as [b'|ex] eqn:E; [|now split].
    simpl. split; [eapply sql_update_columnas; eassumption|].
    revert E. unfold sql_update, ligar.
    repeat match goal with
           | |- context [if ?c then _ else _] => destruct c
           | |- context [match ?x with _ => _ end] => destruct x
           end; intros E; try discriminate; injection E as <-; exact Hc.
  - unfold eliminar_libro.
    destruct (obtener_libro_por_id b n) as [l|]; [|now split].
    simpl. split; [|assumption].
    apply Forall_forall. intros x Hx. apply filter_In in Hx.
    rewrite Forall_forall in IH. apply IH. tauto.
Qed.

(** X2.  Whatever sequence of insertions, updates and deletions the manager
    performs on the empty table, no two rows share a key, every key is below
    the AUTO_INCREMENT counter, every text fits its column and the collation
    is the one the table started with. *)
Theorem manager_invariante col b :
  alcanzable col b ->
  NoDup (map id (filas b))
  /\ Forall (fun l => id l < autoinc b) (filas b)
  /\ Forall fila_en_columnas (filas b)
  /\ colacion b = col.
Proof.
  intros H. destruct (alcanzable_ok col b H) as [Hnd Hlt].
  destruct (alcanzable_columnas col b H) as [Hcol Hc].
  now repeat split.
Qed.

Lemma bd_ejemplo_alcanzable : alcanzable colacion_binaria bd_ejemplo.
Proof.
  pose (b1 := fst (insertar_libro (bd_vacia colacion_binaria)
                     (Some (latin1 "Cien años de soledad"))
                     (Some (latin1 "García Márquez")) (Some "Novela")
                     (Some (latin1 "No leído")))).
  change bd_ejemplo
    with (fst (insertar_libro b1 (Some "abc") (Some "Anon") None (Some (latin1 "Leído")))).
  apply alc_insertar. apply alc_insertar. apply alc_vacia.
Qed.

Lemma manager_invariante_witness :
  NoDup (map id (filas bd_ejemplo))
  /\ Forall (fun l => id l < autoinc bd_ejemplo) (filas bd_ejemplo)
  /\ Forall fila_en_columnas (filas bd_ejemplo)
  /\ colacion bd_ejemplo = colacion_binaria.
Proof.
  apply (manager_invariante colacion_binaria bd_ejemplo).
  exact bd_ejemplo_alcanzable.
Defined.

Lemma find_filter_otro n m (fs : list Libro) :
  m <> n ->
  find (tiene_id m) (filter (fun l => negb (tiene_id n l)) fs) = find (tiene_id m) fs.
Proof.
  intros Hne. induction fs as [|x fs IH]; simpl; [reflexivity|].
  destruct (tiene_id n x) eqn:En, (tiene_id m x) eqn:Em; simpl; rewrite ?Em.
  - apply tiene_id_spec in En, Em. congruence.
  - exact IH.
  - reflexivity.
  - exact IH.
Qed.

Lemma find_filter_mismo n (fs : list Libro) :
  find (tiene_id n) (filter (fun l => negb (tiene_id n l)) fs) = None.
Proof.
  induction fs as [|x fs IH]; simpl; [reflexivity|].
  destruct (tiene_id n x) eqn:E; simpl; [exact IH|].
  rewrite E. exact IH.
Qed.

(** X3.  Deleting under a key that is in the table returns [True]; the key
    then reads as absent, every other key reads as before, and the table is
    the old one without the rows of that key. *)
Theorem eliminar_luego_obtener b n l :
  obtener_libro_por_id b n = Some l ->
  let r := eliminar_libro b n in
  snd r = true
  /\ obtener_libro_por_id (fst r) n = None
  /\ (forall m, m <> n -> obtener_libro_por_id (fst r) m = obtener_libro_por_id b m)
  /\ filas (fst r) = filter (fun x => negb (tiene_id n x)) (filas b)
  /\ autoinc (fst r) = autoinc b.
Proof.
  intros H. cbv zeta. pose proof (obtener_es_fila _ _ _ H) as [_ Hid].
  unfold eliminar_libro. rewrite H. simpl. rewrite Hid.
  split; [reflexivity|]. split; [|split; [|split; reflexivity]].
  - unfold obtener_libro_por_id. simpl. apply find_filter_mismo.
  - intros m Hm. unfold obtener_libro_por_id. simpl. now apply find_filter_otro.
Qed.

Lemma eliminar_luego_obtener_witness :
  let r := eliminar_libro bd_ejemplo 1 in
  snd r = true
  /\ obtener_libro_por_id (fst r) 1 = None
  /\ (forall m, m <> 1 ->
        obtener_libro_por_id (fst r) m = obtener_libro_por_id bd_ejemplo m)
  /\ filas (fst r) = filter (fun x => negb (tiene_id 1 x)) (filas bd_ejemplo)
  /\ autoinc (fst r) = autoinc bd_ejemplo.
Proof.
  apply (eliminar_luego_obtener bd_ejemplo 1 libro_cien). reflexivity.
Defined.

(** ** Search and listing *)

Section FiltroOrden.

Context {A : Type}.
Variable leb : A -> A -> bool.
Variable f : A -> bool.
Hypothesis leb_trans : forall a b c, leb a b = true -> leb b c = true -> leb a c = true.

Lemma insertar_ordenado_primero x l :
  Forall (fun z => leb x z = true) l -> insertar_ordenado leb x l = x :: l.
Proof.
  destruct 1 as [|z l Hz _]; simpl; [reflexivity | now rewrite Hz].
Qed.

Lemma filter_insertar_ordenado x l :
  StronglySorted (fun a b => leb a b = true) l ->
  filter f (insertar_ordenado leb x l)
  = if f x then insertar_ordenado leb x (filter f l) else filter f l.
Proof.
  induction 1 as [|y l Hs IH Hy]; simpl.
  - now destruct (f x).
  - destruct (leb x y) eqn:Exy; simpl.
    + destruct (f x) eqn:Efx; [|reflexivity].
      destruct (f y) eqn:Efy; simpl; [now rewrite Exy|].
      rewrite insertar_ordenado_primero; [reflexivity|].
      apply Forall_forall. intros z Hz. apply filter_In in Hz.
      rewrite Forall_forall in Hy. apply leb_trans with y; [assumption|].
      apply Hy. tauto.
    + rewrite IH. destruct (f y) eqn:Efy, (f x) eqn:Efx; simpl;
        rewrite ?Exy; reflexivity.
Qed.

Hypothesis leb_total : forall a b, leb a b = true \/ leb b a = true.

Lemma filter_ordenar l : filter f (ordenar leb l) = ordenar leb (filter f l).
Proof.
  induction l as [|x l IH]; simpl; [reflexivity|].
  rewrite filter_insertar_ordenado by now apply ordenar_sorted.
  rewrite IH. now destruct (f x).
Qed.

End FiltroOrden.

(** X4.  Under a collation that orders texts, a search gives the listing of
    the whole table with the rows that do not match left out: the rows found
    come in the order of the listing, and each of them is in the listing. *)
Theorem buscar_es_listado_filtrado b termino :
  colacion_ok (colacion b) ->
  buscar_libros b termino
  = map to_dict
      (filter (filtro_busqueda ("%" ++ termino ++ "%"))
         (order_by_titulo b (recorrido b)))
  /\ forall d, In d (buscar_libros b termino) -> In d (obtener_todos_los_libros b).
Proof.
  intros [Htot Htrans].
  assert (E : buscar_libros b termino
              = map to_dict
                  (filter (filtro_busqueda ("%" ++ termino ++ "%"))
                     (order_by_titulo b (recorrido b)))).
  { unfold buscar_libros, order_by_titulo. cbv zeta. f_equal. symmetry.
    apply (filter_ordenar (titulo_leb b)).
    - intros x y z. apply Htrans.
    - intros x y. apply Htot. }
  split; [exact E|].
  intros d. rewrite E. unfold obtener_todos_los_libros.
  rewrite !in_map_iff. intros (l & Hl & Hin).
  exists l. split; [assumption|]. apply filter_In in Hin. tauto.
Qed.

Lemma buscar_es_listado_filtrado_witness :
  buscar_libros bd_ejemplo "a"
  = map to_dict
      (filter (filtro_busqueda ("%" ++ "a" ++ "%"))
         (order_by_titulo bd_ejemplo (recorrido bd_ejemplo)))
  /\ forall d, In d (buscar_libros bd_ejemplo "a") ->
               In d (obtener_todos_los_libros bd_ejemplo).
Proof.
  apply (buscar_es_listado_filtrado bd_ejemplo "a"). exact colacion_binaria_ok.
Defined.

Lemma minuscula_idempotente c : minuscula (minuscula c) = minuscula c.
Proof. destruct c as [[] [] [] [] [] [] [] []]; vm_compute; reflexivity. Qed.

Lemma lower_idempotente s : lower (lower s) = lower s.
Proof.
  induction s as [|c s IH]; simpl; [reflexivity|].
  now rewrite minuscula_idempotente, IH.
Qed.

(** X5.  The letter case of the term does not count: a term and its
    lower-case form find the same rows. *)
Theorem buscar_sin_distinguir_caja b termino :
  buscar_libros b (lower termino) = buscar_libros b termino.
Proof.
  unfold buscar_libros. cbv zeta. f_equal. f_equal.
  apply filter_ext. intros l. unfold filtro_busqueda, ilike.
  rewrite !lower_append, lower_idempotente. reflexivity.
Qed.

Lemma fichas_porcentajes s :
  todo_porcentaje s = true -> Forall (fun x => x = Cualquiera) (fichas s).
Proof.
  induction s as [|c s IH]; simpl; [constructor|].
  rewrite andb_true_iff. intros [Hc Hs]. apply Ascii.eqb_eq in Hc. subst c.
  simpl. constructor; [reflexivity | now apply IH].
Qed.

Lemma coincide_cualquieras p s :
  p <> [] -> Forall (fun x => x = Cualquiera) p -> coincide p s = true.
Proof.
  intros Hne Hall. induction Hall as [|x p -> Hall IH]; [contradiction|].
  destruct p as [|y p].
  - apply coincide_solo_cualquiera.
  - rewrite coincide_cualquiera, IH by discriminate. reflexivity.
Qed.

Lemma todo_porcentaje_app a b :
  todo_porcentaje a = true -> todo_porcentaje b = true ->
  todo_porcentaje (a ++ b) = true.
Proof.
  induction a as [|c a IH]; simpl; [trivial|].
  rewrite !andb_true_iff. intros [Hc Ha] Hb. split; [assumption | now apply IH].
Qed.

Lemma todo_porcentaje_lower s : todo_porcentaje s = true -> lower s = s.
Proof.
  induction s as [|c s IH]; simpl; [reflexivity|].
  rewrite andb_true_iff. intros [Hc Hs]. apply Ascii.eqb_eq in Hc. subst c.
  now rewrite IH.
Qed.

(** X6.  A term made of [%] only, the empty term among them, finds every
    row: the search is the listing of the whole table. *)
Theorem buscar_porcentaje_lista_todo b termino :
  todo_porcentaje termino = true ->
  buscar_libros b termino = obtener_todos_los_libros b.
Proof.
  intros Ht. unfold buscar_libros, obtener_todos_los_libros. cbv zeta.
  f_equal. f_equal.
  assert (Hp : todo_porcentaje ("%" ++ termino ++ "%") = true).
  { apply (todo_porcentaje_app "%"); [reflexivity|].
    now apply todo_porcentaje_app. }
  assert (Hf : forall l, filtro_busqueda ("%" ++ termino ++ "%") l = true).
  { intros l. unfold filtro_busqueda, ilike, like.
    rewrite (todo_porcentaje_lower _ Hp).
    rewrite !coincide_cualquieras.
    - now destruct (genero l).
    - destruct termino; discriminate.
    - now apply fichas_porcentajes.
    - destruct termino; discriminate.
    - now apply fichas_porcentajes. }
  generalize (filtro_busqueda ("%" ++ termino ++ "%")) Hf. intros f Htrue.
  induction (recorrido b) as [|x xs IH]; simpl; [reflexivity|].
  now rewrite Htrue, IH.
Qed.

Lemma buscar_porcentaje_lista_todo_witness :
  buscar_libros bd_ejemplo "%" = obtener_todos_los_libros bd_ejemplo.
Proof.
  apply (buscar_porcentaje_lista_todo bd_ejemplo "%"). reflexivity.
Defined.

(** ** Reading the console *)

Lemma obtener_entrada_desplegada prompt w :
  obtener_entrada prompt w
  = while_true (S (List.length (entradas w))) (cuerpo_obtener_entrada prompt) w.
Proof.
  unfold obtener_entrada, bucle, cuerpo_obtener_entrada, queja_vacia. reflexivity.
Qed.

Lemma obtener_entrada_vueltas prompt blancas : forall n w linea resto,
  (List.length blancas < n)%nat ->
  entradas w = (blancas ++ linea :: resto)%list ->
  Forall (fun x => es_blanca x = true) blancas -> es_blanca linea = false ->
  while_true n
    (cuerpo_obtener_entrada prompt) w
  = Hecho (strip linea)
      {| bd := bd w; entradas := resto;
         salida := salida w
                   ++ flat_map (fun _ => [Pregunta prompt; Imprime queja_vacia]) blancas
                   ++ [Pregunta prompt] |}.
Proof.
  induction blancas as [|b blancas IH]; intros n w linea resto Hn Hw Hall Hl;
    (destruct n as [|n]; [simpl in Hn; lia|]).
  - simpl in Hw. cbn [while_true]. unfold bind at 1.
    unfold cuerpo_obtener_entrada at 1. unfold bind at 1. unfold input.
    rewrite Hw. cbv zeta.
    unfold es_blanca in Hl. apply negb_false_iff in Hl. rewrite Hl.
    reflexivity.
  - simpl in Hw. inversion Hall as [|? ? Hb Hall']; subst.
    cbn [while_true]. unfold bind at 1.
    unfold cuerpo_obtener_entrada at 1. unfold bind at 1. unfold input at 1.
    rewrite Hw. cbv zeta.
    unfold es_blanca in Hb. apply negb_true_iff in Hb. rewrite Hb.
    unfold bind at 1. unfold print at 1. unfold ret at 1.
    rewrite (IH n _ linea resto); simpl in *; try lia; try assumption; try reflexivity.
    f_equal. f_equal. now rewrite <- !app_assoc.
Qed.

Lemma obtener_entrada_fin prompt blancas : forall n w,
  (List.length blancas < n)%nat ->
  entradas w = blancas ->
  Forall (fun x => es_blanca x = true) blancas ->
  while_true n
    (cuerpo_obtener_entrada prompt) w
  = Falla EOFError
      {| bd := bd w; entradas := [];
         salida := salida w
                   ++ flat_map (fun _ => [Pregunta prompt; Imprime queja_vacia]) blancas
                   ++ [Pregunta prompt] |}.
Proof.
  induction blancas as [|b blancas IH]; intros n w Hn Hw Hall;
    (destruct n as [|n]; [simpl in Hn; lia|]).
  - cbn [while_true]. unfold bind at 1.
    unfold cuerpo_obtener_entrada at 1. unfold bind at 1. unfold input.
    rewrite Hw. unfold escribe. rewrite Hw. reflexivity.
  - inversion Hall as [|? ? Hb Hall']; subst.
    cbn [while_true]. unfold bind at 1.
    unfold cuerpo_obtener_entrada at 1. unfold bind at 1. unfold input at 1.
    rewrite Hw. cbv zeta.
    unfold es_blanca in Hb. apply negb_true_iff in Hb. rewrite Hb.
    unfold bind at 1. unfold print at 1. unfold ret at 1.
    rewrite (IH n); simpl in *; try lia; try assumption; try reflexivity.
    f_equal. f_equal. now rewrite <- !app_assoc.
Qed.

(** X7.  [obtener_entrada] skips the lines that are blank, with a complaint
    for each, and returns the first line that is not, without the blanks
    around it; the lines after it are left to be read and the database is
    not touched.  When every line left is blank it ends in [EOFError]. *)
Theorem obtener_entrada_primera_no_blanca prompt w blancas :
  Forall (fun x => es_blanca x = true) blancas ->
  (forall linea resto,
     entradas w = (blancas ++ linea :: resto)%list -> es_blanca linea = false ->
     obtener_entrada prompt w
     = Hecho (strip linea)
         {| bd := bd w; entradas := resto;
            salida := salida w
                      ++ flat_map (fun _ => [Pregunta prompt; Imprime queja_vacia]) blancas
                      ++ [Pregunta prompt] |}
     /\ strip linea <> "")
  /\ (entradas w = blancas ->
      obtener_entrada prompt w
      = Falla EOFError
          {| bd := bd w; entradas := [];
             salida := salida w
                       ++ flat_map (fun _ => [Pregunta prompt; Imprime queja_vacia]) blancas
                       ++ [Pregunta prompt] |}).
Proof.
  intros Hall. split.
  - intros linea resto Hw Hl. split.
    + rewrite obtener_entrada_desplegada.
      apply obtener_entrada_vueltas; try assumption.
      rewrite Hw, length_app. simpl. lia.
    + unfold es_blanca in Hl. apply negb_false_iff in Hl.
      unfold no_vacia in Hl. apply negb_true_iff in Hl.
      now apply String.eqb_neq in Hl.
  - intros Hw. rewrite obtener_entrada_desplegada.
    apply obtener_entrada_fin; try assumption. rewrite Hw. lia.
Qed.

Lemma obtener_entrada_primera_no_blanca_witness :
  (obtener_entrada "> " (mundo_ejemplo [""; "  "; " Rayuela "; "x"])
   = Hecho (strip " Rayuela ")
       {| bd := bd (mundo_ejemplo [""; "  "; " Rayuela "; "x"]); entradas := ["x"];
          salida := salida (mundo_ejemplo [""; "  "; " Rayuela "; "x"])
                    ++ flat_map (fun _ => [Pregunta "> "; Imprime queja_vacia])
                         [""; "  "]
                    ++ [Pregunta "> "] |}
   /\ strip " Rayuela " <> "")
  /\ obtener_entrada "> " (mundo_ejemplo [""; "  "])
     = Falla EOFError
         {| bd := bd (mundo_ejemplo [""; "  "]); entradas := [];
            salida := salida (mundo_ejemplo [""; "  "])
                      ++ flat_map (fun _ => [Pregunta "> "; Imprime queja_vacia])
                           [""; "  "]
                      ++ [Pregunta "> "] |}.
Proof.
  assert (Hb : Forall (fun x => es_blanca x = true) [""; "  "])
    by (repeat constructor).
  split.
  - apply (proj1 (obtener_entrada_primera_no_blanca "> "
                    (mundo_ejemplo [""; "  "; " Rayuela "; "x"]) [""; "  "] Hb)
             " Rayuela " ["x"]); reflexivity.
  - apply (proj2 (obtener_entrada_primera_no_blanca "> "
                    (mundo_ejemplo [""; "  "]) [""; "  "] Hb)); reflexivity.
Defined.

(** ** What the console keeps *)

Section Conserva.

Variable Inv : BaseDatos -> Prop.

Lemma conserva_debil {A} (c : IO A) (Q Q' : A -> Prop) :
  (forall a, Q a -> Q' a) -> conserva Inv c Q -> conserva Inv c Q'.
Proof.
  intros HQ Hc w Hw. specialize (Hc w Hw).
  destruct (c w); auto. destruct Hc. split; auto.
Qed.

Lemma conserva_ret {A} (a : A) (Q : A -> Prop) : Q a -> conserva Inv (ret a) Q.
Proof. intros Ha w Hw. simpl. now split. Qed.

Lemma conserva_print texto : conserva Inv (print texto) (fun _ => True).
Proof. intros w Hw. simpl. now split. Qed.

Lemma conserva_limpiar : conserva Inv limpiar_pantalla (fun _ => True).
Proof. intros w Hw. simpl. now split. Qed.

Lemma conserva_input prompt : conserva Inv (input prompt) (fun _ => True).
Proof.
  intros w Hw. unfold input. destruct (entradas w); simpl; [assumption | now split].
Qed.

Lemma conserva_elevar {A} (r : resultado A) : conserva Inv (elevar r) (fun _ => True).
Proof. intros w Hw. unfold elevar. destruct r; simpl; [now split | assumption]. Qed.

Lemma conserva_bind {A B} (c : IO A) (k : A -> IO B) (Q : A -> Prop) (R : B -> Prop) :
  conserva Inv c Q -> (forall a, Q a -> conserva Inv (k a) R) -> conserva Inv (bind c k) R.
Proof.
  intros Hc Hk w Hw. unfold bind. specialize (Hc w Hw).
  destruct (c w) as [a w'|e w'|]; auto.
  destruct Hc as [Hw' Ha]. exact (Hk a Ha w' Hw').
Qed.

Lemma conserva_seguido {A B} (c : IO A) (k : A -> IO B) (R : B -> Prop) :
  conserva Inv c (fun _ => True) -> (forall a, conserva Inv (k a) R) ->
  conserva Inv (bind c k) R.
Proof. intros Hc Hk. apply conserva_bind with (Q := fun _ => True); auto. Qed.

Lemma conserva_while {A} (cuerpo : IO (paso A)) (Q : A -> Prop) :
  conserva Inv cuerpo (fun p => match p with Sale a => Q a | Sigue => True end) ->
  forall n, conserva Inv (while_true n cuerpo) Q.
Proof.
  intros Hc. induction n as [|n IH]; intros w Hw; simpl; [trivial|].
  unfold bind. specialize (Hc w Hw).
  destruct (cuerpo w) as [[|a] w'|e w'|].
  - destruct Hc as [Hw' _]. exact (IH w' Hw').
  - simpl. exact Hc.
  - exact Hc.
  - trivial.
Qed.

Lemma conserva_bucle {A} (cuerpo : IO (paso A)) (Q : A -> Prop) :
  conserva Inv cuerpo (fun p => match p with Sale a => Q a | Sigue => True end) ->
  conserva Inv (bucle cuerpo) Q.
Proof. intros Hc w Hw. unfold bucle. now apply conserva_while. Qed.

Lemma conserva_obtener_entrada prompt :
  conserva Inv (obtener_entrada prompt) (fun s => s <> "").
Proof.
  unfold obtener_entrada. apply conserva_bucle.
  apply conserva_seguido; [apply conserva_input|].
  intros linea. cbv zeta. destruct (no_vacia (strip linea)) eqn:E.
  - apply conserva_ret. unfold no_vacia in E.
    apply negb_true_iff, String.eqb_neq in E. exact E.
  - apply conserva_seguido; [apply conserva_print|].
    intros _. now apply conserva_ret.
Qed.

Lemma conserva_db_obtener_libro_por_id n :
  conserva Inv (db.obtener_libro_por_id n) (fun _ => True).
Proof. intros w Hw. simpl. now split. Qed.

Lemma conserva_db_obtener_todos :
  conserva Inv db.obtener_todos_los_libros (fun _ => True).
Proof. intros w Hw. simpl. now split. Qed.

Lemma conserva_db_buscar termino : conserva Inv (db.buscar_libros termino) (fun _ => True).
Proof. intros w Hw. simpl. now split. Qed.

Lemma conserva_obtener_id_valido mensaje :
  conserva Inv (obtener_id_valido mensaje) (fun _ => True).
Proof.
  unfold obtener_id_valido. apply conserva_bucle.
  apply conserva_bind with (Q := fun s => s <> ""); [apply conserva_obtener_entrada|].
  intros texto _. destruct (a_entero texto) as [n|].
  - apply conserva_seguido; [apply conserva_db_obtener_libro_por_id|].
    intros [l|]; [now apply conserva_ret|].
    apply conserva_seguido; [apply conserva_print|]. intros _. now apply conserva_ret.
  - apply conserva_seguido; [apply conserva_print|]. intros _. now apply conserva_ret.
Qed.

Lemma conserva_pedir_estado prompt queja :
  conserva Inv (pedir_estado prompt queja)
    (fun s => s = fst ESTADOS_LECTURA \/ s = snd ESTADOS_LECTURA).
Proof.
  unfold pedir_estado. apply conserva_bucle.
  apply conserva_bind with (Q := fun s => s <> ""); [apply conserva_obtener_entrada|].
  intros x _.
  destruct (x =? "1")%string; [apply conserva_ret; now left|].
  destruct (x =? "2")%string; [apply conserva_ret; now right|].
  apply conserva_seguido; [apply conserva_print|]. intros _. now apply conserva_ret.
Qed.

Lemma conserva_imprimir_lineas libros :
  conserva Inv (imprimir_lineas libros) (fun _ => True).
Proof.
  induction libros as [|d ds IH]; simpl; [now apply conserva_ret|].
  apply conserva_seguido; [apply conserva_elevar|]. intros linea.
  apply conserva_seguido; [apply conserva_print|]. intros _. exact IH.
Qed.

Lemma conserva_mostrar_libros_tabla libros :
  conserva Inv (mostrar_libros_tabla libros) (fun _ => True).
Proof.
  unfold mostrar_libros_tabla. destruct libros as [|d ds]; [apply conserva_print|].
  repeat (apply conserva_seguido; [apply conserva_print|]; intros _).
  apply conserva_seguido; [apply conserva_imprimir_lineas|]. intros _.
  apply conserva_print.
Qed.

Lemma conserva_mostrar_menu : conserva Inv mostrar_menu (fun _ => True).
Proof.
  unfold mostrar_menu.
  repeat (apply conserva_seguido; [apply conserva_print|]; intros _).
  apply conserva_print.
Qed.

Lemma conserva_manejar_listado_libros :
  conserva Inv manejar_listado_libros (fun _ => True).
Proof.
  unfold manejar_listado_libros.
  apply conserva_seguido; [apply conserva_limpiar|]. intros _.
  apply conserva_seguido; [apply conserva_print|]. intros _.
  apply conserva_seguido; [apply conserva_db_obtener_todos|]. intros libros.
  apply conserva_mostrar_libros_tabla.
Qed.

Lemma conserva_manejar_buscar_libros :
  conserva Inv manejar_buscar_libros (fun _ => True).
Proof.
  unfold manejar_buscar_libros.
  apply conserva_seguido; [apply conserva_limpiar|]. intros _.
  apply conserva_seguido; [apply conserva_print|]. intros _.
  apply conserva_bind with (Q := fun s => s <> ""); [apply conserva_obtener_entrada|].
  intros termino _.
  apply conserva_seguido; [apply conserva_db_buscar|]. intros libros.
  apply conserva_seguido; [apply conserva_print|]. intros _.
  apply conserva_mostrar_libros_tabla.
Qed.

End Conserva.

(** X8.  Listing and searching only read: whether they return or stop on an
    exception, the database is the one they started with, and their loops
    always come to an end. *)
Theorem consultas_solo_leen w :
  match manejar_listado_libros w with
  | Hecho _ w' | Falla _ w' => bd w' = bd w
  | Agotado => False
  end
  /\ match manejar_buscar_libros w with
     | Hecho _ w' | Falla _ w' => bd w' = bd w
     | Agotado => False
     end.
Proof.
  split.
  - pose proof (conserva_manejar_listado_libros (fun b => b = bd w) w eq_refl) as H.
    pose proof (no_crece_manejar_listado_libros w) as Hn.
    destruct (manejar_listado_libros w); [apply H | apply H | exact Hn].
  - pose proof (conserva_manejar_buscar_libros (fun b => b = bd w) w eq_refl) as H.
    pose proof (no_crece_manejar_buscar_libros w) as Hn.
    destruct (manejar_buscar_libros w); [apply H | apply H | exact Hn].
Qed.

Lemma conserva_db_consulta (b0 : BaseDatos) n :
  conserva (fun b => b = b0) (db.obtener_libro_por_id n)
    (fun r => r = obtener_libro_por_id b0 n).
Proof. intros w Hw. simpl. split; [assumption | now rewrite Hw]. Qed.

(** X9.  [obtener_id_valido] only returns the key of a row that is in the
    table, and it leaves the database as it found it. *)
Theorem obtener_id_valido_existe mensaje w n w' :
  obtener_id_valido mensaje w = Hecho n w' ->
  bd w' = bd w /\ exists l, obtener_libro_por_id (bd w) n = Some l /\ id l = n.
Proof.
  intros H.
  assert (Hc : conserva (fun b => b = bd w) (obtener_id_valido mensaje)
                 (fun k => exists l, obtener_libro_por_id (bd w) k = Some l)).
  { unfold obtener_id_valido. apply conserva_bucle.
    apply conserva_bind with (Q := fun s => s <> "");
      [apply conserva_obtener_entrada|].
    intros texto _. destruct (a_entero texto) as [k|].
    - eapply conserva_bind; [apply conserva_db_consulta|].
      intros r ->. destruct (obtener_libro_por_id (bd w) k) as [l|] eqn:E.
      + apply conserva_ret. now exists l.
      + apply conserva_seguido; [apply conserva_print|].
        intros _. now apply conserva_ret.
    - apply conserva_seguido; [apply conserva_print|].
      intros _. now apply conserva_ret. }
  specialize (Hc w eq_refl). rewrite H in Hc. destruct Hc as [Hb [l Hl]].
  split; [assumption|]. exists l. split; [assumption|].
  now apply (obtener_es_fila (bd w) n l).
Qed.

Lemma obtener_id_valido_existe_witness :
  exists w',
    obtener_id_valido "ID: " (mundo_ejemplo ["dos"; "9"; " 2 "; "x"]) = Hecho 2 w'
    /\ bd w' = bd (mundo_ejemplo ["dos"; "9"; " 2 "; "x"])
    /\ exists l, obtener_libro_por_id (bd (mundo_ejemplo ["dos"; "9"; " 2 "; "x"])) 2
                 = Some l /\ id l = 2.
Proof.
  eexists. split; [vm_compute; reflexivity|].
  apply (obtener_id_valido_existe "ID: " (mundo_ejemplo ["dos"; "9"; " 2 "; "x"]) 2).
  vm_compute. reflexivity.
Defined.

(** ** The rows that the console writes *)

Lemma fila_consola_nueva t a g e n :
  t <> "" -> a <> "" -> g <> "" ->
  e = fst ESTADOS_LECTURA \/ e = snd ESTADOS_LECTURA ->
  fila_consola (mkLibro n t a (Some g) e).
Proof. intros Ht Ha Hg He. repeat split; simpl; eauto. Qed.

Lemma conserva_db_insertar t a g e :
  t <> "" -> a <> "" -> g <> "" ->
  e = fst ESTADOS_LECTURA \/ e = snd ESTADOS_LECTURA ->
  conserva bd_consola (db.insertar_libro t a g e) (fun _ => True).
Proof.
  intros Ht Ha Hg He w Hw. unfold db.insertar_libro, insertar_libro.
  destruct (sql_insert (bd w) (Some t) (Some a) (Some g) (Some e)) as [b'|ex] eqn:E.
  - simpl. split; [|trivial].
    destruct (sql_insert_fila _ _ _ _ _ _ E) as (t' & a' & e' & Et & Ea & Ee & _ & ->).
    injection Et as <-. injection Ea as <-. injection Ee as <-.
    unfold bd_consola. simpl. apply Forall_app. split; [exact Hw|].
    constructor; [now apply fila_consola_nueva | constructor].
  - destruct ex; simpl; try exact Hw. now split.
Qed.

Lemma conserva_db_actualizar n campo v :
  In campo CAMPOS -> v <> "" ->
  (campo = "estado" -> v = fst ESTADOS_LECTURA \/ v = snd ESTADOS_LECTURA) ->
  conserva bd_consola (db.actualizar_libro n campo v) (fun _ => True).
Proof.
  intros Hc Hv He w Hw. unfold db.actualizar_libro, actualizar_libro.
  destruct (obtener_libro_por_id (bd w) n) as [l|]; [|simpl; now split].
  destruct (sql_update (bd w) l campo (Some v)) as [b'|ex] eqn:E;
    [|simpl; now split].
  simpl. split; [|trivial]. revert E. unfold sql_update, ligar, texto_obligatorio,
    texto_opcional.
  simpl in Hc. destruct Hc as [<- | [<- | [<- | [<- | []]]]]; simpl String.eqb; cbv iota.
  - destruct (255 <? len v)%nat; [discriminate|]. intros E. injection E as <-.
    unfold bd_consola. simpl. apply Forall_modificar; [|exact Hw].
    intros x (H1 & H2 & H3 & H4). repeat split; simpl; assumption.
  - destruct (255 <? len v)%nat; [discriminate|]. intros E. injection E as <-.
    unfold bd_consola. simpl. apply Forall_modificar; [|exact Hw].
    intros x (H1 & H2 & H3 & H4). repeat split; simpl; assumption.
  - destruct (100 <? len v)%nat; [discriminate|]. intros E. injection E as <-.
    unfold bd_consola. simpl. apply Forall_modificar; [|exact Hw].
    intros x (H1 & H2 & H3 & H4). repeat split; simpl; try assumption.
    now exists v.
  - destruct (20 <? len v)%nat; [discriminate|]. intros E. injection E as <-.
    unfold bd_consola. simpl. apply Forall_modificar; [|exact Hw].
    intros x (H1 & H2 & H3 & H4). repeat split; simpl; try assumption.
    now apply He.
Qed.

Lemma conserva_db_eliminar n :
  conserva bd_consola (db.eliminar_libro n) (fun _ => True).
Proof.
  intros w Hw. unfold db.eliminar_libro, eliminar_libro.
  destruct (obtener_libro_por_id (bd w) n) as [l|]; [|simpl; now split].
  simpl. split; [|trivial]. unfold bd_consola in *. simpl.
  apply Forall_forall. intros x Hx. apply filter_In in Hx.
  rewrite Forall_forall in Hw. apply Hw. tauto.
Qed.

Lemma conserva_manejar_agregar_libro :
  conserva bd_consola manejar_agregar_libro (fun _ => True).
Proof.
  unfold manejar_agregar_libro.
  apply conserva_seguido; [apply conserva_limpiar|]. intros _.
  apply conserva_seguido; [apply conserva_print|]. intros _.
  eapply conserva_bind; [apply conserva_obtener_entrada|]. intros t Ht.
  eapply conserva_bind; [apply conserva_obtener_entrada|]. intros a Ha.
  eapply conserva_bind; [apply conserva_obtener_entrada|]. intros g Hg.
  eapply conserva_bind; [apply conserva_pedir_estado|]. intros e He.
  apply conserva_seguido; [now apply conserva_db_insertar|].
  intros [|]; apply conserva_print.
Qed.

Lemma conserva_manejar_actualizar_libro :
  conserva bd_consola manejar_actualizar_libro (fun _ => True).
Proof.
  unfold manejar_actualizar_libro.
  apply conserva_seguido; [apply conserva_limpiar|]. intros _.
  apply conserva_seguido; [apply conserva_print|]. intros _.
  apply conserva_seguido; [apply conserva_db_obtener_todos|]. intros libros.
  apply conserva_seguido; [apply conserva_mostrar_libros_tabla|]. intros _.
  destruct libros as [|d ds]; [now apply conserva_ret|].
  apply conserva_seguido; [apply conserva_obtener_id_valido|]. intros n.
  repeat (apply conserva_seguido; [apply conserva_print|]; intros _).
  eapply conserva_bind; [apply conserva_obtener_entrada|]. intros opcion _.
  destruct (buscar_clave campos opcion) as [campo|] eqn:Ec; [|apply conserva_print].
  assert (Hin : In campo CAMPOS).
  { revert Ec. unfold campos, CAMPOS. simpl.
    repeat match goal with
           | |- context [if ?c then _ else _] => destruct c
           end; intros H; try discriminate; injection H as <-; simpl; tauto. }
  destruct (String.eqb_spec campo "estado") as [-> | Hne].
  - eapply conserva_bind; [apply conserva_pedir_estado|]. intros v Hv.
    apply conserva_seguido.
    + apply conserva_db_actualizar; [assumption | | trivial].
      destruct Hv as [-> | ->]; discriminate.
    + intros [exito error]. apply conserva_print.
  - eapply conserva_bind; [apply conserva_obtener_entrada|]. intros v Hv.
    apply conserva_seguido.
    + apply conserva_db_actualizar; [assumption | assumption | contradiction].
    + intros [exito error]. apply conserva_print.
Qed.

Lemma conserva_manejar_eliminar_libro :
  conserva bd_consola manejar_eliminar_libro (fun _ => True).
Proof.
  unfold manejar_eliminar_libro.
  apply conserva_seguido; [apply conserva_limpiar|]. intros _.
  apply conserva_seguido; [apply conserva_print|]. intros _.
  apply conserva_seguido; [apply conserva_db_obtener_todos|]. intros libros.
  apply conserva_seguido; [apply conserva_mostrar_libros_tabla|]. intros _.
  destruct libros as [|d ds]; [now apply conserva_ret|].
  apply conserva_seguido; [apply conserva_obtener_id_valido|]. intros n.
  apply conserva_seguido; [apply conserva_input|]. intros linea. cbv zeta.
  destruct (lower linea =? "s")%string; [|apply conserva_print].
  apply conserva_seguido; [apply conserva_db_eliminar|].
  intros [|]; apply conserva_print.
Qed.

Lemma conserva_turno : conserva bd_consola turno (fun _ => True).
Proof.
  unfold turno.
  apply conserva_seguido; [apply conserva_mostrar_menu|]. intros _.
  apply conserva_seguido; [apply conserva_input|]. intros linea. cbv zeta.
  unfold despachar.
  destruct (strip linea =? "1")%string.
  { apply conserva_seguido; [apply conserva_manejar_agregar_libro|].
    intros _. now apply conserva_ret. }
  destruct (strip linea =? "2")%string.
  { apply conserva_seguido; [apply conserva_manejar_listado_libros|].
    intros _. now apply conserva_ret. }
  destruct (strip linea =? "3")%string.
  { apply conserva_seguido; [apply conserva_manejar_buscar_libros|].
    intros _. now apply conserva_ret. }
  destruct (strip linea =? "4")%string.
  { apply conserva_seguido; [apply conserva_manejar_actualizar_libro|].
    intros _. now apply conserva_ret. }
  destruct (strip linea =? "5")%string.
  { apply conserva_seguido; [apply conserva_manejar_eliminar_libro|].
    intros _. now apply conserva_ret. }
  destruct (strip linea =? "6")%string;
    (apply conserva_seguido; [apply conserva_print|]; intros _; now apply conserva_ret).
Qed.

(** X10.  Whatever is typed, the program keeps the table within what its
    prompts let through: if every row has a title and an author that are not
    empty, a genre, and one of the two reading states, the same holds when
    the program ends, be it through the exit option or on an exception. *)
Theorem main_conserva_filas w :
  bd_consola (bd w) ->
  match main w with
  | Hecho _ w' | Falla _ w' => bd_consola (bd w')
  | Agotado => False
  end.
Proof.
  intros Hw.
  assert (Hc : conserva bd_consola main (fun _ => True)).
  { unfold main. apply conserva_seguido; [apply conserva_print|]. intros _.
    apply conserva_bucle. eapply conserva_debil; [|apply conserva_turno].
    intros [|[]]; trivial. }
  specialize (Hc w Hw). pose proof (main_termina w) as Ht.
  destruct (main w); [apply Hc | apply Hc | congruence].
Qed.

Lemma main_conserva_filas_witness :
  match main sesion_ejemplo with
  | Hecho _ w' | Falla _ w' => bd_consola (bd w')
  | Agotado => False
  end.
Proof.
  apply (main_conserva_filas sesion_ejemplo). constructor.
Defined.

Example sesion_ejemplo_resultado :
  exists w',
    main sesion_ejemplo = Hecho tt w'
    /\ filas (bd w')
       = [mkLibro 1 "El perseguidor" (latin1 "Cortázar") (Some "Novela")
            (latin1 "No leído")]
    /\ entradas w' = [].
Proof. eexists. split; [vm_compute; reflexivity | split; reflexivity]. Qed.

(** ** Listing the table *)


Lemma Forall_obtener_todos (P : Libro -> Prop) b :
  Forall P (filas b) <-> Forall P (order_by_titulo b (recorrido b)).
Proof.
  assert (Hp : Permutation (filas b) (order_by_titulo b (recorrido b))).
  { unfold order_by_titulo, recorrido. now rewrite <- !ordenar_perm. }
  split; intros H.
  - eapply Permutation_Forall; eassumption.
  - eapply Permutation_Forall; [apply Permutation_sym|]; eassumption.
Qed.


(** ** Adding a book at the console *)

Lemma obtener_entrada_directa prompt w linea resto :
  entradas w = linea :: resto -> es_blanca linea = false ->
  obtener_entrada prompt w
  = Hecho (strip linea)
      {| bd := bd w; entradas := resto; salida := salida w ++ [Pregunta prompt] |}.
Proof.
  intros Hw Hl. rewrite obtener_entrada_desplegada.
  rewrite (obtener_entrada_vueltas prompt [] _ w linea resto);
    [reflexivity | rewrite Hw; simpl; lia | exact Hw | constructor | exact Hl].
Qed.

Lemma pedir_estado_directo prompt queja w linea resto estado :
  entradas w = linea :: resto ->
  (strip linea = "1" /\ estado = fst ESTADOS_LECTURA)
  \/ (strip linea = "2" /\ estado = snd ESTADOS_LECTURA) ->
  pedir_estado prompt queja w
  = Hecho estado
      {| bd := bd w; entradas := resto; salida := salida w ++ [Pregunta prompt] |}.
Proof.
  intros Hw He. unfold pedir_estado, bucle. rewrite Hw. cbn [List.length while_true].
  unfold bind at 1. unfold bind at 1.
  assert (Hl : es_blanca linea = false).
  { unfold es_blanca. destruct He as [[-> _] | [-> _]]; reflexivity. }
  rewrite (obtener_entrada_directa prompt w linea resto Hw Hl).
  destruct He as [[-> ->] | [-> ->]]; reflexivity.
Qed.

(** X12.  When the next four lines are a title, an author and a genre that
    are not blank and the choice 1 or 2, [manejar_agregar_libro] makes one
    call of [insertar_libro], with the three texts free of the blanks around
    them and the reading state that the choice stands for, and reads no
    further line.  When the texts fit their columns the book is stored under
    the next key and the last thing written is the message of success. *)
Theorem agregar_desde_consola w t a g e resto estado :
  entradas w = t :: a :: g :: e :: resto ->
  es_blanca t = false -> es_blanca a = false -> es_blanca g = false ->
  (strip e = "1" /\ estado = fst ESTADOS_LECTURA)
  \/ (strip e = "2" /\ estado = snd ESTADOS_LECTURA) ->
  match manejar_agregar_libro w with
  | Hecho _ w' | Falla _ w' =>
      bd w' = fst (insertar_libro (bd w) (Some (strip t)) (Some (strip a))
                     (Some (strip g)) (Some estado))
      /\ entradas w' = resto
  | Agotado => False
  end
  /\ (tupla_valida (strip t) (strip a) (Some (strip g)) estado ->
      exists w',
        manejar_agregar_libro w = Hecho tt w'
        /\ filas (bd w')
           = (filas (bd w)
              ++ [mkLibro (autoinc (bd w)) (strip t) (strip a) (Some (strip g)) estado])%list
        /\ exists antes,
             salida w'
             = (antes ++ [Imprime (nl ++ " Libro '" ++ strip t ++ "' de " ++ strip a
                                   ++ " agregado exitosamente.")])%list).
Proof.
  intros Hw Ht Ha Hg He.
  assert (Hrun : exists w4,
            bd w4 = bd w /\ entradas w4 = resto
            /\ manejar_agregar_libro w
               = (ok <- db.insertar_libro (strip t) (strip a) (strip g) estado ;;
                  if ok : bool
                  then print (nl ++ " Libro '" ++ strip t ++ "' de " ++ strip a
                              ++ " agregado exitosamente.")
                  else print (nl ++ " Error al agregar el libro (posible duplicado o error de integridad).")) w4).
  { unfold manejar_agregar_libro.
    unfold bind at 1. unfold limpiar_pantalla at 1. cbv beta iota.
    unfold bind at 1. unfold print at 1. cbv beta iota.
    unfold bind at 1.
    rewrite (obtener_entrada_directa _ _ t (a :: g :: e :: resto)); [|exact Hw|exact Ht].
    cbv beta iota. unfold bind at 1.
    rewrite (obtener_entrada_directa _ _ a (g :: e :: resto)); [|reflexivity|exact Ha].
    cbv beta iota. unfold bind at 1.
    rewrite (obtener_entrada_directa _ _ g (e :: resto)); [|reflexivity|exact Hg].
    cbv beta iota. unfold bind at 1.
    rewrite (pedir_estado_directo _ _ _ e resto estado); [|reflexivity|exact He].
    cbv beta iota.
    eexists. split; [|split]; [| |reflexivity]; reflexivity. }
  destruct Hrun as (w4 & Hb4 & He4 & Hrun). rewrite Hrun.
  unfold bind, db.insertar_libro. rewrite Hb4. split.
  - destruct (insertar_libro (bd w) (Some (strip t)) (Some (strip a))
                (Some (strip g)) (Some estado)) as [b' [[|]|ex]]; simpl;
      now split.
  - intros Hval. rewrite (insertar_libro_valida _ _ _ _ _ Hval). simpl.
    eexists. split; [reflexivity|]. split; [reflexivity|].
    simpl. eexists. reflexivity.
Qed.

Lemma agregar_desde_consola_witness :
  match manejar_agregar_libro (mundo_ejemplo [" Rayuela "; "Julio"; "Novela"; "2"; "6"]) with
  | Hecho _ w' | Falla _ w' =>
      bd w' = fst (insertar_libro (bd (mundo_ejemplo [" Rayuela "; "Julio"; "Novela"; "2"; "6"]))
                     (Some (strip " Rayuela ")) (Some (strip "Julio"))
                     (Some (strip "Novela")) (Some (snd ESTADOS_LECTURA)))
      /\ entradas w' = ["6"]
  | Agotado => False
  end
  /\ exists w',
       manejar_agregar_libro (mundo_ejemplo [" Rayuela "; "Julio"; "Novela"; "2"; "6"])
       = Hecho tt w'
       /\ filas (bd w')
          = (filas (bd (mundo_ejemplo [" Rayuela "; "Julio"; "Novela"; "2"; "6"]))
             ++ [mkLibro (autoinc (bd (mundo_ejemplo [" Rayuela "; "Julio"; "Novela"; "2"; "6"])))
                   (strip " Rayuela ") (strip "Julio") (Some (strip "Novela"))
                   (snd ESTADOS_LECTURA)])%list
       /\ exists antes,
            salida w'
            = (antes ++ [Imprime (nl ++ " Libro '" ++ strip " Rayuela " ++ "' de "
                                  ++ strip "Julio" ++ " agregado exitosamente.")])%list.
Proof.
  destruct (agregar_desde_consola
              (mundo_ejemplo [" Rayuela "; "Julio"; "Novela"; "2"; "6"])
              " Rayuela " "Julio" "Novela" "2" ["6"] (snd ESTADOS_LECTURA)
              eq_refl eq_refl eq_refl eq_refl (or_intror (conj eq_refl eq_refl)))
    as [H1 H2].
  split; [exact H1|]. apply H2. unfold tupla_valida. simpl. lia.
Defined.

(** ** Deleting at the console *)

Section LineasEn.

Variable b0 : BaseDatos.
Variable P : string -> Prop.

Lemma cm_ret {A} (a : A) (Q : A -> Prop) : Q a -> conserva_mundo (lineas_en b0 P) (ret a) Q.
Proof. intros Ha w Hw. simpl. now split. Qed.

Lemma cm_print texto : conserva_mundo (lineas_en b0 P) (print texto) (fun _ => True).
Proof. intros w Hw. simpl. now split. Qed.

Lemma cm_limpiar : conserva_mundo (lineas_en b0 P) limpiar_pantalla (fun _ => True).
Proof. intros w Hw. simpl. now split. Qed.

Lemma cm_elevar {A} (r : resultado A) : conserva_mundo (lineas_en b0 P) (elevar r) (fun _ => True).
Proof. intros w Hw. unfold elevar. destruct r; simpl; [now split | assumption]. Qed.

(** A line that is read is one of the lines that were to be typed. *)
Lemma cm_input prompt : conserva_mundo (lineas_en b0 P) (input prompt) P.
Proof.
  intros w [Hb Hl]. unfold input. destruct (entradas w) as [|l r] eqn:E.
  - split; simpl; [assumption | rewrite E; assumption].
  - inversion Hl as [|x xs Hpl Hr]. split; [split|]; simpl; assumption.
Qed.

Lemma cm_bind {A B} (c : IO A) (k : A -> IO B) (Q : A -> Prop) (R : B -> Prop) :
  conserva_mundo (lineas_en b0 P) c Q -> (forall a, Q a -> conserva_mundo (lineas_en b0 P) (k a) R) ->
  conserva_mundo (lineas_en b0 P) (bind c k) R.
Proof.
  intros Hc Hk w Hw. unfold bind. specialize (Hc w Hw).
  destruct (c w) as [a w'|e w'|]; auto.
  destruct Hc as [Hw' Ha]. exact (Hk a Ha w' Hw').
Qed.

Lemma cm_seguido {A B} (c : IO A) (k : A -> IO B) (Q : A -> Prop) (R : B -> Prop) :
  conserva_mundo (lineas_en b0 P) c Q -> (forall a, conserva_mundo (lineas_en b0 P) (k a) R) ->
  conserva_mundo (lineas_en b0 P) (bind c k) R.
Proof. intros Hc Hk. apply cm_bind with (Q := Q); auto. Qed.

Lemma cm_bucle {A} (cuerpo : IO (paso A)) (Q : A -> Prop) :
  conserva_mundo (lineas_en b0 P) cuerpo (fun p => match p with Sale a => Q a | Sigue => True end) ->
  conserva_mundo (lineas_en b0 P) (bucle cuerpo) Q.
Proof.
  intros Hc w Hw. unfold bucle. generalize (S (List.length (entradas w))).
  intros n. revert w Hw. induction n as [|n IH]; intros w Hw; simpl; [trivial|].
  unfold bind. specialize (Hc w Hw).
  destruct (cuerpo w) as [[|a] w'|e w'|].
  - destruct Hc as [Hw' _]. exact (IH w' Hw').
  - simpl. exact Hc.
  - exact Hc.
  - trivial.
Qed.

Lemma cm_obtener_entrada prompt :
  conserva_mundo (lineas_en b0 P) (obtener_entrada prompt) (fun _ => True).
Proof.
  unfold obtener_entrada. apply cm_bucle.
  eapply cm_seguido; [apply cm_input|].
  intros linea. cbv zeta. destruct (no_vacia (strip linea)).
  - now apply cm_ret.
  - eapply cm_seguido; [apply cm_print|]. intros _. now apply cm_ret.
Qed.

Lemma cm_db_obtener_libro_por_id n :
  conserva_mundo (lineas_en b0 P) (db.obtener_libro_por_id n) (fun _ => True).
Proof. intros w Hw. simpl. now split. Qed.

Lemma cm_db_obtener_todos :
  conserva_mundo (lineas_en b0 P) db.obtener_todos_los_libros (fun _ => True).
Proof. intros w Hw. simpl. now split. Qed.

Lemma cm_obtener_id_valido mensaje :
  conserva_mundo (lineas_en b0 P) (obtener_id_valido mensaje) (fun _ => True).
Proof.
  unfold obtener_id_valido. apply cm_bucle.
  eapply cm_seguido; [apply cm_obtener_entrada|].
  intros texto. destruct (a_entero texto) as [n|].
  - eapply cm_seguido; [apply cm_db_obtener_libro_por_id|].
    intros [l|]; [now apply cm_ret|].
    eapply cm_seguido; [apply cm_print|]. intros _. now apply cm_ret.
  - eapply cm_seguido; [apply cm_print|]. intros _. now apply cm_ret.
Qed.

Lemma cm_imprimir_lineas libros :
  conserva_mundo (lineas_en b0 P) (imprimir_lineas libros) (fun _ => True).
Proof.
  induction libros as [|d ds IH]; simpl; [now apply cm_ret|].
  eapply cm_seguido; [apply cm_elevar|]. intros linea.
  eapply cm_seguido; [apply cm_print|]. intros _. exact IH.
Qed.

Lemma cm_mostrar_libros_tabla libros :
  conserva_mundo (lineas_en b0 P) (mostrar_libros_tabla libros) (fun _ => True).
Proof.
  unfold mostrar_libros_tabla. destruct libros as [|d ds]; [apply cm_print|].
  repeat (eapply cm_seguido; [apply cm_print|]; intros _).
  eapply cm_seguido; [apply cm_imprimir_lineas|]. intros _.
  apply cm_print.
Qed.

End LineasEn.

(** X13.  Nothing is deleted without its confirmation: when none of the
    lines still to be typed is [s] or [S], [manejar_eliminar_libro] leaves
    the database as it was, whether it returns or stops on an exception. *)
Theorem eliminar_pide_confirmacion w :
  Forall (fun linea => lower linea <> "s") (entradas w) ->
  match manejar_eliminar_libro w with
  | Hecho _ w' | Falla _ w' => bd w' = bd w
  | Agotado => False
  end.
Proof.
  intros Hl.
  assert (Hc : conserva_mundo (lineas_en (bd w) (fun linea => lower linea <> "s"))
                 manejar_eliminar_libro (fun _ => True)).
  { unfold manejar_eliminar_libro.
    eapply cm_seguido; [apply cm_limpiar|]. intros _.
    eapply cm_seguido; [apply cm_print|]. intros _.
    eapply cm_seguido; [apply cm_db_obtener_todos|]. intros libros.
    eapply cm_seguido; [apply cm_mostrar_libros_tabla|]. intros _.
    destruct libros as [|d ds]; [now apply cm_ret|].
    eapply cm_seguido; [apply cm_obtener_id_valido|]. intros n.
    eapply cm_bind; [apply cm_input|]. intros linea Hlinea. cbv zeta.
    destruct (String.eqb_spec (lower linea) "s"); [contradiction|].
    apply cm_print. }
  specialize (Hc w (conj eq_refl Hl)).
  pose proof (no_crece_manejar_eliminar_libro w) as Hn.
  destruct (manejar_eliminar_libro w); [apply Hc | apply Hc | exact Hn].
Qed.

Lemma eliminar_pide_confirmacion_witness :
  match manejar_eliminar_libro (mundo_dos ["1"; " s"; "6"]) with
  | Hecho _ w' | Falla _ w' => bd w' = bd (mundo_dos ["1"; " s"; "6"])
  | Agotado => False
  end.
Proof.
  apply (eliminar_pide_confirmacion (mundo_dos ["1"; " s"; "6"])).
  repeat constructor; discriminate.
Defined.

Lemma a_entero_no_blanca linea n : a_entero (strip linea) = Some n -> es_blanca linea = false.
Proof.
  unfold es_blanca, no_vacia. intros H.
  destruct (String.eqb_spec (strip linea) ""); [|reflexivity].
  rewrite e in H. discriminate.
Qed.

Lemma obtener_id_valido_directo mensaje w linea resto n l :
  entradas w = linea :: resto -> a_entero (strip linea) = Some n ->
  obtener_libro_por_id (bd w) n = Some l ->
  obtener_id_valido mensaje w
  = Hecho n {| bd := bd w; entradas := resto; salida := salida w ++ [Pregunta mensaje] |}.
Proof.
  intros Hw Hn Hl. unfold obtener_id_valido, bucle. rewrite Hw.
  cbn [List.length while_true]. unfold bind at 1. unfold bind at 1.
  rewrite (obtener_entrada_directa mensaje w linea resto Hw
             (a_entero_no_blanca linea n Hn)).
  rewrite Hn. unfold bind at 1. unfold db.obtener_libro_por_id. cbn [bd].
  rewrite Hl. reflexivity.
Qed.

(** The table of a database whose rows all have a genre and which is not
    empty: it is printed, and nothing else happens. *)
Lemma tabla_de_bd b l :
  Forall (fun x => tiene_genero x = true) (filas b) -> In l (filas b) ->
  exists d ds,
    obtener_todos_los_libros b = d :: ds
    /\ forall w0, exists evs,
         mostrar_libros_tabla (d :: ds) w0 = Hecho tt (escribe_todo evs w0).
Proof.
  intros Hall Hin. unfold obtener_todos_los_libros.
  apply (Forall_obtener_todos _ b) in Hall.
  assert (Hp : Permutation (filas b) (order_by_titulo b (recorrido b))).
  { unfold order_by_titulo, recorrido. now rewrite <- !ordenar_perm. }
  destruct (order_by_titulo b (recorrido b)) as [|x xs].
  - apply Permutation_sym, Permutation_nil in Hp. rewrite Hp in Hin. contradiction.
  - exists (to_dict x), (map to_dict xs). split; [reflexivity|].
    intros w0. destruct (tabla_impresa x xs w0 Hall) as (lineas & _ & E).
    eexists. exact E.
Qed.

(** X14.  In a table whose rows all have a genre, so that the table which
    the handler prints first does not stop it, and with the next line one
    that [int] reads as the key of a row: [manejar_eliminar_libro] reads that
    line and the answer on the line after it, and returns.  It has deleted
    the row of that key when the answer is [s] or [S], and nothing when the
    answer is anything else, blanks around an [s] included. *)
Theorem eliminar_desde_consola w linea conf resto n l :
  entradas w = linea :: conf :: resto ->
  a_entero (strip linea) = Some n ->
  obtener_libro_por_id (bd w) n = Some l ->
  Forall (fun x => tiene_genero x = true) (filas (bd w)) ->
  exists w',
    manejar_eliminar_libro w = Hecho tt w'
    /\ entradas w' = resto
    /\ bd w' = if (lower conf =? "s")%string
               then fst (eliminar_libro (bd w) n) else bd w.
Proof.
  intros Hw Hn Hl Hall.
  destruct (tabla_de_bd (bd w) l Hall (proj1 (obtener_es_fila _ _ _ Hl)))
    as (d & ds & Hlist & Htabla).
  unfold manejar_eliminar_libro.
  cbv beta iota delta [bind limpiar_pantalla print db.obtener_todos_los_libros].
  cbn [bd escribe]. rewrite Hlist.
  match goal with
  | |- context [mostrar_libros_tabla (d :: ds) ?w0] =>
      destruct (Htabla w0) as (evs & ->)
  end.
  cbv beta iota.
  rewrite (obtener_id_valido_directo _ _ linea (conf :: resto) n l);
    [|exact Hw|exact Hn|exact Hl].
  unfold input. cbn [entradas]. cbv beta iota zeta.
  destruct (lower conf =? "s")%string.
  - unfold db.eliminar_libro, escribe_todo, escribe. cbn [bd entradas salida].
    destruct (eliminar_libro (bd w) n) as [b' [|]]; cbv beta iota;
      eexists; (split; [reflexivity|]); split; reflexivity.
  - eexists. split; [reflexivity|]. split; reflexivity.
Qed.

Lemma eliminar_desde_consola_witness :
  exists w',
    manejar_eliminar_libro (mundo_dos [" 2 "; "S"; "6"]) = Hecho tt w'
    /\ entradas w' = ["6"]
    /\ bd w' = if (lower "S" =? "s")%string
               then fst (eliminar_libro (bd (mundo_dos [" 2 "; "S"; "6"])) 2)
               else bd (mundo_dos [" 2 "; "S"; "6"]).
Proof.
  apply (eliminar_desde_consola (mundo_dos [" 2 "; "S"; "6"]) " 2 " "S" ["6"] 2
           libro_rayuela); try reflexivity.
  repeat constructor.
Defined.

(** The first half of [manejar_actualizar_libro]: with a key of the table on
    the next line and a choice on the line after it, the handler reaches the
    dispatch on the choice with the database untouched and both lines read. *)
Lemma actualizar_hasta_campo w linea opcion resto n l :
  entradas w = linea :: opcion :: resto ->
  a_entero (strip linea) = Some n ->
  obtener_libro_por_id (bd w) n = Some l ->
  Forall (fun x => tiene_genero x = true) (filas (bd w)) ->
  es_blanca opcion = false ->
  exists w3,
    bd w3 = bd w /\ entradas w3 = resto
    /\ manejar_actualizar_libro w
       = match buscar_clave campos (strip opcion) with
         | Some campo =>
             (nuevo_valor <-
                (if (campo =? "estado")%string
                 then pedir_estado (latin1 "Nuevo estado (1: Leído, 2: No leído): ")
                        (latin1 " Opción no válida. Use '1' o '2'.")
                 else obtener_entrada ("Ingrese el nuevo valor para '"
                                       ++ capitalize campo ++ "': ")) ;;
              r <- db.actualizar_libro n campo nuevo_valor ;;
              let (exito, error) := r : bool * option string in
              print (texto_informe n (clasificar exito error))) w3
         | None => print (latin1 " Opción no válida.") w3
         end.
Proof.
  intros Hw Hn Hl Hall Hop.
  destruct (tabla_de_bd (bd w) l Hall (proj1 (obtener_es_fila _ _ _ Hl)))
    as (d & ds & Hlist & Htabla).
  destruct (Htabla (escribe (Imprime (nl ++ "---  ACTUALIZAR LIBRO ---"))
                      (escribe LimpiaPantalla w))) as (evs & Etabla).
  eexists. split; [|split]; cycle 2.
  - unfold manejar_actualizar_libro.
    unfold bind at 1. unfold limpiar_pantalla at 1.
    unfold bind at 1. unfold print at 1.
    unfold bind at 1. unfold db.obtener_todos_los_libros at 1.
    cbn [bd escribe]. rewrite Hlist.
    unfold bind at 1. rewrite Etabla.
    unfold bind at 1.
    rewrite (obtener_id_valido_directo _ _ linea (opcion :: resto) n l);
      [|exact Hw|exact Hn|exact Hl].
    do 5 (unfold bind at 1; unfold print at 1).
    unfold bind at 1.
    rewrite (obtener_entrada_directa _ _ opcion resto);
      [|reflexivity|exact Hop].
    destruct (buscar_clave campos (strip opcion)); reflexivity.
  - reflexivity.
  - reflexivity.
Qed.

(** X15.  In a table whose rows all have a genre, with the next line one
    that [int] reads as the key of a row, the line after it the choice of the
    title, the author or the genre (1, 2 or 3, blanks around it aside) and
    the third line a value that is not blank: [manejar_actualizar_libro]
    makes one call of [actualizar_libro] on the chosen field, with the value
    free of the blanks around it, and returns having read the three lines.
    Whether the value is stored is for [actualizar_libro] to say. *)
Theorem actualizar_desde_consola w linea opcion valor resto n l campo :
  entradas w = linea :: opcion :: valor :: resto ->
  a_entero (strip linea) = Some n ->
  obtener_libro_por_id (bd w) n = Some l ->
  Forall (fun x => tiene_genero x = true) (filas (bd w)) ->
  es_blanca opcion = false ->
  buscar_clave campos (strip opcion) = Some campo ->
  campo <> "estado" ->
  es_blanca valor = false ->
  exists w',
    manejar_actualizar_libro w = Hecho tt w' /\ entradas w' = resto
    /\ bd w' = fst (actualizar_libro (bd w) n campo (Some (strip valor))).
Proof.
  intros Hw Hn Hl Hall Hop Hc Hne Hv.
  destruct (actualizar_hasta_campo w linea opcion (valor :: resto) n l Hw Hn Hl Hall Hop)
    as (w3 & Hb3 & He3 & Hrun).
  rewrite Hrun, Hc. clear Hrun.
  apply String.eqb_neq in Hne. rewrite Hne.
  unfold bind at 1.
  rewrite (obtener_entrada_directa _ w3 valor resto He3 Hv).
  unfold bind at 1. unfold db.actualizar_libro. cbn [bd]. rewrite Hb3.
  destruct (actualizar_libro (bd w) n campo (Some (strip valor))) as [b' [exito error]].
  eexists. split; [reflexivity|]. split; reflexivity.
Qed.

Lemma actualizar_desde_consola_witness :
  exists w',
    manejar_actualizar_libro (mundo_dos ["2"; "1"; " Los premios "; "6"]) = Hecho tt w'
    /\ entradas w' = ["6"]
    /\ bd w' = fst (actualizar_libro (bd (mundo_dos ["2"; "1"; " Los premios "; "6"]))
                      2 "titulo" (Some (strip " Los premios "))).
Proof.
  apply (actualizar_desde_consola (mundo_dos ["2"; "1"; " Los premios "; "6"])
           "2" "1" " Los premios " ["6"] 2 libro_rayuela "titulo");
    try reflexivity; [repeat constructor | discriminate].
Defined.

(** X16.  In a table whose rows all have a genre, with the next line one
    that [int] reads as the key of a row, the line after it the choice 4 and
    the third line the answer 1 or 2 (blanks around them aside):
    [manejar_actualizar_libro] makes one call of [actualizar_libro] on the
    field [estado], with the first of [ESTADOS_LECTURA] for the answer 1 and
    the second for the answer 2, and returns having read the three lines. *)
Theorem actualizar_estado_desde_consola w linea opcion valor resto n l estado :
  entradas w = linea :: opcion :: valor :: resto ->
  a_entero (strip linea) = Some n ->
  obtener_libro_por_id (bd w) n = Some l ->
  Forall (fun x => tiene_genero x = true) (filas (bd w)) ->
  strip opcion = "4" ->
  (strip valor = "1" /\ estado = fst ESTADOS_LECTURA)
  \/ (strip valor = "2" /\ estado = snd ESTADOS_LECTURA) ->
  exists w',
    manejar_actualizar_libro w = Hecho tt w' /\ entradas w' = resto
    /\ bd w' = fst (actualizar_libro (bd w) n "estado" (Some estado)).
Proof.
  intros Hw Hn Hl Hall H4 Hest.
  assert (Hop : es_blanca opcion = false).
  { unfold es_blanca, no_vacia. now rewrite H4. }
  destruct (actualizar_hasta_campo w linea opcion (valor :: resto) n l Hw Hn Hl Hall Hop)
    as (w3 & Hb3 & He3 & Hrun).
  assert (Hc : buscar_clave campos (strip opcion) = Some "estado")
    by (rewrite H4; reflexivity).
  rewrite Hrun, Hc. clear Hrun.
  cbn [String.eqb Ascii.eqb Bool.eqb]. cbv iota.
  unfold bind at 1.
  rewrite (pedir_estado_directo _ _ w3 valor resto estado He3 Hest).
  unfold bind at 1. unfold db.actualizar_libro. cbn [bd]. rewrite Hb3.
  destruct (actualizar_libro (bd w) n "estado" (Some estado)) as [b' [exito error]].
  eexists. split; [reflexivity|]. split; reflexivity.
Qed.

Lemma actualizar_estado_desde_consola_witness :
  exists w',
    manejar_actualizar_libro (mundo_dos ["2"; " 4"; "1 "; "6"]) = Hecho tt w'
    /\ entradas w' = ["6"]
    /\ bd w' = fst (actualizar_libro (bd (mundo_dos ["2"; " 4"; "1 "; "6"]))
                      2 "estado" (Some (fst ESTADOS_LECTURA))).
Proof.
  apply (actualizar_estado_desde_consola (mundo_dos ["2"; " 4"; "1 "; "6"])
           "2" " 4" "1 " ["6"] 2 libro_rayuela (fst ESTADOS_LECTURA));
    try reflexivity; [repeat constructor | left; split; reflexivity].
Defined.

(** ** Texts that are no integers *)

Lemma espacio_no_digito c : es_espacio c = true -> es_digito c = false.
Proof.
  destruct c as [[] [] [] [] [] [] [] []]; intros H; try reflexivity; discriminate H.
Qed.

Lemma cuenta_digitos_lstrip s : cuenta_digitos (lstrip s) = cuenta_digitos s.
Proof.
  induction s as [|c r IH]; [reflexivity|]. cbn [lstrip cuenta_digitos].
  destruct (es_espacio c) eqn:E; [|reflexivity].
  rewrite (espacio_no_digito c E), IH. reflexivity.
Qed.

Lemma cuenta_digitos_rstrip s : cuenta_digitos (rstrip s) = cuenta_digitos s.
Proof.
  induction s as [|c r IH]; [reflexivity|]. cbn [rstrip cuenta_digitos].
  rewrite <- IH. destruct (rstrip r) as [|d r'].
  - destruct (es_espacio c) eqn:E; [|reflexivity].
    rewrite (espacio_no_digito c E). reflexivity.
  - reflexivity.
Qed.

Lemma cuenta_digitos_strip s : cuenta_digitos (strip s) = cuenta_digitos s.
Proof. unfold strip. now rewrite cuenta_digitos_rstrip, cuenta_digitos_lstrip. Qed.

Lemma magnitud_limite s : int_max_str_digits < cuenta_digitos s -> magnitud s = None.
Proof. intros H. unfold magnitud. apply Z.ltb_lt in H. now rewrite H. Qed.

(** [int] refuses a text of more than 4300 digits. *)
Lemma a_entero_limite s : int_max_str_digits < cuenta_digitos s -> a_entero s = None.
Proof.
  intros H. rewrite <- cuenta_digitos_strip in H. unfold a_entero.
  destruct (strip s) as [|c r]; [apply magnitud_limite; exact H|].
  destruct c as [[] [] [] [] [] [] [] []];
    try (apply magnitud_limite; exact H);
    change (int_max_str_digits < 0 + cuenta_digitos r) in H;
    rewrite Z.add_0_l in H; rewrite (magnitud_limite r H); reflexivity.
Qed.

(** The limit is on the digits written, not on the number: 4300 digits are
    read, one more is refused. *)
Example a_entero_en_el_limite :
  a_entero (repetir "0" 4299 ++ "7") = Some 7
  /\ a_entero (repetir "0" 4300 ++ "7") = None
  /\ a_entero ("-" ++ repetir "0" 4300 ++ "7") = None.
Proof. repeat split; vm_compute; reflexivity. Qed.

(** X17.  A line of more than 4300 digits is no key, whatever number it
    spells: [obtener_id_valido] answers it with its complaint about integers
    and goes on as if it had been called on the lines after it. *)
Theorem obtener_id_valido_limite_digitos mensaje w linea resto :
  entradas w = linea :: resto ->
  int_max_str_digits < cuenta_digitos linea ->
  obtener_id_valido mensaje w
  = obtener_id_valido mensaje
      {| bd := bd w; entradas := resto;
         salida := (salida w ++ [Pregunta mensaje])
                   ++ [Imprime (latin1 " Por favor, ingrese un número entero válido para el ID.")] |}.
Proof.
  intros Hw Hd.
  assert (Hb : es_blanca linea = false).
  { unfold es_blanca, no_vacia. rewrite <- cuenta_digitos_strip in Hd.
    destruct (strip linea); [|reflexivity].
    unfold int_max_str_digits in Hd. simpl in Hd. lia. }
  assert (Hn : a_entero (strip linea) = None).
  { apply a_entero_limite. now rewrite cuenta_digitos_strip. }
  unfold obtener_id_valido, bucle. cbn [entradas]. rewrite Hw.
  cbn [List.length]. cbn [while_true]. unfold bind at 1. unfold bind at 1.
  rewrite (obtener_entrada_directa mensaje w linea resto Hw Hb).
  rewrite Hn. reflexivity.
Qed.

Lemma obtener_id_valido_limite_digitos_witness :
  obtener_id_valido "ID: " (mundo_ejemplo [repetir "0" 4300 ++ "2"; "1"])
  = obtener_id_valido "ID: "
      {| bd := bd (mundo_ejemplo [repetir "0" 4300 ++ "2"; "1"]); entradas := ["1"];
         salida := (salida (mundo_ejemplo [repetir "0" 4300 ++ "2"; "1"])
                    ++ [Pregunta "ID: "])
                   ++ [Imprime (latin1 " Por favor, ingrese un número entero válido para el ID.")] |}.
Proof.
  apply (obtener_id_valido_limite_digitos "ID: "
           (mundo_ejemplo [repetir "0" 4300 ++ "2"; "1"])
           (repetir "0" 4300 ++ "2") ["1"]).
  - reflexivity.
  - vm_compute. reflexivity.
Defined.
